(** * mysql_mcp_server: the stdio JSON-RPC transport and the method dispatcher

    A shallow embedding of [server.js]: the classes [JsonRpcStdio] (line
    framing and message classification) and [MCPServer] (handler registry and
    reply envelopes), and the part of [createServer] that configures them.

    Conventions.
    - A JavaScript string is the list of its UTF-16 code units.
    - A JavaScript value is a tree ([value]).  Its numbers are the Numbers
      without a fraction, taken in [Z]: the code tests, compares and prints
      numbers and never computes with them; [0] stands for the two zeros,
      which these operations do not tell apart.  A Number with a fraction
      has no term, and an integer beyond [2^53] that is no binary64 number
      is no value of JavaScript: nothing is said of a message that holds
      one.
    - The built-ins [JSON.parse] and [JSON.stringify] are parameters
      ([Runtime]).
    - What the code does to the outside (writes to stdout, [console.error],
      calls of functions it was given) is recorded, in order, in a trace. *)

From Stdlib Require Import ZArith String Ascii DecimalString.
From stdpp Require Import base option list countable gmap.
From Equations Require Import Equations.
From Equations.Prop Require Import Logic.

Local Open Scope N_scope.
Local Open Scope string_scope.
Local Open Scope list_scope.

(** ** JavaScript data *)

Module Js.

(** A string: its UTF-16 code units. *)
Abbreviation jsstring := (list N).

(** A string literal of the source, all of whose characters are ASCII. *)
Definition str (s : string) : jsstring :=
  N_of_ascii <$> list_ascii_of_string s.

Definition LF : N := 10.

#[warnings="-register-all"] Inductive value : Type :=
| VUndefined
| VNull
| VBool (b : bool)
| VNum (n : Z)
| VStr (s : jsstring)
| VArr (items : list value)
| VObj (props : list (jsstring * value)).

(** ToBoolean: [undefined], [null], [false], [0] and [''] are falsy. *)
Definition truthy (v : value) : bool :=
  match v with
  | VUndefined | VNull => false
  | VBool b => b
  | VNum n => negb (n =? 0)%Z
  | VStr s => negb (bool_decide (s = []))
  | VArr _ | VObj _ => true
  end.

(** The own property [k] of an object literal or of a parsed object. *)
Fixpoint own (k : jsstring) (props : list (jsstring * value)) : option value :=
  match props with
  | [] => None
  | (k', v) :: rest => if decide (k' = k) then Some v else own k rest
  end.

(** The property read [v.k], for the names this program reads ([method],
    [id], [params]: none is an index or a built-in property).  Reading a
    property of [null] or [undefined] throws a TypeError: [None]. *)
Definition prop (v : value) (k : jsstring) : option value :=
  match v with
  | VUndefined | VNull => None
  | VObj props => Some (default VUndefined (own k props))
  | VBool _ | VNum _ | VStr _ | VArr _ => Some VUndefined
  end.

Definition has_own (k : jsstring) (v : value) : bool :=
  match v with
  | VObj props => bool_decide (is_Some (own k props))
  | _ => false
  end.

(** The decimal numeral of an integer, most significant digit first. *)
Definition digits (n : Z) : jsstring :=
  str (DecimalString.NilZero.string_of_int (Z.to_int n)).

(** Numbers are binary64 floating-point numbers: from [2^53] on, not every
    integer is one.  [ulp x] is the distance from the Number [x >= 2^53] to
    the Number above it. *)
Definition ulp (x : Z) : Z := 2 ^ (Z.log2 x - 52).

(** Whether the integer [c], read as a decimal numeral, is the Number
    [x >= 2^53]: [c] is nearer to [x] than to the Numbers next to [x]; a [c]
    half way between two Numbers is the one whose significand is even.  The
    Number below a power of two is half as far as the one above. *)
Definition reads_back (x c : Z) : bool :=
  let below := if (x =? 2 ^ Z.log2 x)%Z then (ulp x / 2)%Z else ulp x in
  if Z.even (x / ulp x)
  then (2 * x - below <=? 2 * c)%Z && (2 * c <=? 2 * x + ulp x)%Z
  else (2 * x - below <? 2 * c)%Z && (2 * c <? 2 * x + ulp x)%Z.

(** The multiple of [unit], a power of ten, with the fewest significant
    digits that reads back as [x]; of two with as many digits, the nearer to
    [x], and the even one if they are as near.  [k] bounds the number of
    digits tried, starting from one. *)
Fixpoint shortest (k : nat) (x unit : Z) : Z :=
  match k with
  | O => x
  | S k' =>
      let low := (x / unit * unit)%Z in
      let high := (low + unit)%Z in
      match reads_back x low, reads_back x high with
      | true, true =>
          if (x - low <? high - x)%Z then low
          else if (high - x <? x - low)%Z then high
          else if Z.even (low / unit) then low else high
      | true, false => low
      | false, true => high
      | false, false => shortest k' x (unit / 10)%Z
      end
  end.

(** A numeral without the zeros it ends with. *)
Fixpoint strip_zeros (s : jsstring) : jsstring :=
  match s with
  | [] => []
  | c :: rest =>
      match strip_zeros rest with
      | [] => if decide (c = 48) then [] else [c]
      | rest' => c :: rest'
      end
  end.

(** [Number::toString(n)] in radix 10 for an integer-valued Number [n]: the
    digits of the shortest numeral that reads back as [n], which below
    [2^53] is the numeral of [n] itself; written out when it has 21 digits
    or fewer ([1152921504606847000] for [2^60]), and as [d.ddde+x] beyond
    ([1e+21]). *)
Definition Number_toString (n : Z) : jsstring :=
  let x := Z.abs n in
  let numeral :=
    digits (if (x <? 2 ^ 53)%Z then x
            else let d := length (digits x) in
                 shortest d x (10 ^ (Z.of_nat d - 1))%Z) in
  (if (n <? 0)%Z then str "-" else []) ++
  if (length numeral <=? 21)%nat then numeral
  else
    match strip_zeros numeral with
    | [] => numeral
    | [d] => d :: str "e+" ++ digits (Z.of_nat (length numeral) - 1)
    | d :: more => d :: str "." ++ more ++ str "e+"
                     ++ digits (Z.of_nat (length numeral) - 1)
    end.

(** ToString, as applied by [+] and by a template literal to an operand that
    is no string, and by [String(v)], for values that hold no function.  An
    object prints as [[object Object]] unless it has a property [toString]
    of its own: that property is then not callable, [valueOf] gives no
    primitive value either, and the conversion throws a TypeError: [None].
    An array prints its items, [undefined] and [null] as nothing, with
    commas between them. *)
Fixpoint ToString (v : value) : option jsstring :=
  match v with
  | VUndefined => Some (str "undefined")
  | VNull => Some (str "null")
  | VBool true => Some (str "true")
  | VBool false => Some (str "false")
  | VNum n => Some (Number_toString n)
  | VStr s => Some s
  | VArr items =>
      (fix join (l : list value) : option jsstring :=
         match l with
         | [] => Some []
         | x :: rest =>
             item ← match x with
                    | VUndefined | VNull => Some []
                    | _ => ToString x
                    end;
             match rest with
             | [] => Some item
             | _ :: _ => tail ← join rest; Some (item ++ str "," ++ tail)
             end
         end) items
  | VObj props =>
      match own (str "toString") props with
      | Some _ => None
      | None => Some (str "[object Object]")
      end
  end.

(** [s.indexOf(c)] for a one-character [c]; [None] stands for [-1]. *)
Fixpoint indexOf (c : N) (s : jsstring) : option nat :=
  match s with
  | [] => None
  | x :: rest => if decide (x = c) then Some 0%nat else S <$> indexOf c rest
  end.

(** [s.slice(from, to)] and [s.slice(from)] for indices within [s]. *)
Definition slice (s : jsstring) (from to : nat) : jsstring :=
  take (to - from) (drop from s).
Definition slice_from (s : jsstring) (from : nat) : jsstring :=
  drop from s.

(** WhiteSpace and LineTerminator code points, the ones [trim] strips. *)
Definition is_white_space (c : N) : bool :=
  bool_decide (c ∈ [9; 10; 11; 12; 13; 32; 160; 5760; 8232; 8233; 8239; 8287;
                    12288; 65279])
  || ((8192 <=? c)%N && (c <=? 8202)%N).

Fixpoint trim_start (s : jsstring) : jsstring :=
  match s with
  | [] => []
  | c :: rest => if is_white_space c then trim_start rest else s
  end.

Definition trim_end (s : jsstring) : jsstring :=
  reverse (trim_start (reverse s)).

Definition trim (s : jsstring) : jsstring := trim_end (trim_start s).

(** Literals of the source: ['...'] and [{ k: v, ... }]. *)
Definition text (s : string) : value := VStr (str s).
Definition object (props : list (string * value)) : value :=
  VObj (prod_map str id <$> props).

End Js.
Import Js.


(** ** Effects *)

(** A key of a JavaScript [Map] that a parsed message can match.  [Map]
    compares keys with SameValueZero: primitives by value, objects by
    identity.  An array or an object obtained from [JSON.parse] is a fresh
    object, identical to no key stored earlier: it has no [key]. *)
Variant key :=
| KUndefined
| KNull
| KBool (b : bool)
| KNum (n : Z)
| KStr (s : jsstring).

#[global] Instance key_eq_dec : EqDecision key.
Proof. solve_decision. Defined.

#[global] Instance key_countable : Countable key.
Proof.
  refine (inj_countable'
    (λ k, match k with
          | KUndefined => inl (inl false)
          | KNull => inl (inl true)
          | KBool b => inl (inr b)
          | KNum n => inr (inl n)
          | KStr s => inr (inr s)
          end)
    (λ x, match x with
          | inl (inl false) => KUndefined
          | inl (inl true) => KNull
          | inl (inr b) => KBool b
          | inr (inl n) => KNum n
          | inr (inr s) => KStr s
          end) _).
  by intros [].
Defined.

Definition to_key (v : value) : option key :=
  match v with
  | VUndefined => Some KUndefined
  | VNull => Some KNull
  | VBool b => Some (KBool b)
  | VNum n => Some (KNum n)
  | VStr s => Some (KStr s)
  | VArr _ | VObj _ => None
  end.

(** [m.get(k)], [m.has(k)] and [m.delete(k)] for a value [k] of a message. *)
Definition Map_get {A} (m : gmap key A) (k : value) : option A :=
  to_key k ≫= λ k', m !! k'.
Definition Map_has {A} (m : gmap key A) (k : value) : bool :=
  bool_decide (is_Some (Map_get m k)).
Definition Map_delete {A} (m : gmap key A) (k : value) : gmap key A :=
  match to_key k with
  | Some k' => delete k' m
  | None => m
  end.

(** A function the transport was given and calls back.  The model of the
    transport does not run it: the call is recorded, and the function is
    taken to return (the request listener is an [async] function, which
    always does).  What the function does during the call is not in the trace
    of the transport: the listener of a server runs [_onRequest] up to its
    first [await], so that the reply to a request for an unknown method is
    written, and the handler of a known one is called, before [_onData] goes
    on to the next line. *)
Variant callback :=
| Dispatch               (* [(msg) => this._onRequest(msg)] of the owning server *)
| Resolver (n : nat).    (* a completion callback stored in [pending] *)

(** What the code does, in the order in which it does it.  [Classify] is not
    an effect on the outside: it marks that a parsed message is handed to
    [_handleMessage]. *)
Variant effect :=
| Stdout (text : jsstring)                       (* [process.stdout.write(text)] *)
| ConsoleError (args : list value)               (* [console.error(...args)] *)
| Classify (msg : value)                         (* [this._handleMessage(msg)] *)
| Call (f : callback) (arg : value)              (* [f(arg)] *)
| CallHandler (method : value) (params : value). (* [this.handlers.get(method)(params)] *)

(** The texts written to stdout, in order. *)
Definition written (tr : list effect) : list jsstring :=
  omap (λ e, match e with Stdout text => Some text | _ => None end) tr.

(** The handler calls, in order. *)
Definition handler_calls (tr : list effect) : list (value * value) :=
  omap (λ e, match e with CallHandler m p => Some (m, p) | _ => None end) tr.

(** How a piece of code ends: it returns, or a TypeError escapes from it. *)
Variant completion (A : Type) :=
| Returned (a : A)
| TypeError.
Arguments Returned {A} a.
Arguments TypeError {A}.

Record run (S A : Type) := Run {
  final : S;
  trace : list effect;
  outcome : completion A
}.
Arguments Run {S A} final trace outcome.
Arguments final {S A} r.
Arguments trace {S A} r.
Arguments outcome {S A} r.

(** Two runs that an observer cannot tell apart: the same effects in the same
    order and the same end; the same fields at the end when the code returns.
    (After an uncaught exception the process is gone, and its fields with
    it.) *)
Definition same_behaviour {S A} (r1 r2 : run S A) : Prop :=
  trace r1 = trace r2 ∧ outcome r1 = outcome r2 ∧
  (outcome r1 ≠ TypeError → final r1 = final r2).

(** Code of a method of an object whose fields are [S]. *)
Definition M (S A : Type) : Type := S → run S A.

(** [r], preceded by the effects [tr]. *)
Definition after {S A} (tr : list effect) (r : run S A) : run S A :=
  Run (final r) (tr ++ trace r) (outcome r).

#[global] Instance M_ret {S} : MRet (M S) := λ A a this, Run this [] (Returned a).
#[global] Instance M_bind {S} : MBind (M S) := λ A B k m this,
  match m this with
  | Run this' tr (Returned a) => after tr (k a this')
  | Run this' tr TypeError => Run this' tr TypeError
  end.

Definition gets {S A} (f : S → A) : M S A := λ this, Run this [] (Returned (f this)).
Definition modify {S} (f : S → S) : M S unit := λ this, Run (f this) [] (Returned tt).
Definition emit {S} (e : effect) : M S unit := λ this, Run this [e] (Returned tt).
Definition throw_TypeError {S A} : M S A := λ this, Run this [] TypeError.

(** [v.k] inside a method. *)
Definition read {S} (v : value) (k : string) : M S value :=
  match prop v (str k) with
  | Some x => mret x
  | None => throw_TypeError
  end.

(** [v] as the operand of a [+] whose other operand is a string. *)
Definition operand {S} (v : value) : M S jsstring :=
  match ToString v with
  | Some s => mret s
  | None => throw_TypeError
  end.

(** The built-in functions of the JavaScript runtime that the program calls.
    [JSON_parse] is [None] where [JSON.parse] throws a SyntaxError. *)
Class Runtime := {
  JSON_parse : jsstring → option value;
  JSON_stringify : value → jsstring
}.

(** ** class JsonRpcStdio *)

Record JsonRpcStdio := {
  pending : gmap key callback;
  buffer : jsstring;
  onRequest : option callback
}.

Definition with_pending (p : gmap key callback) (this : JsonRpcStdio) :=
  {| pending := p; buffer := buffer this; onRequest := onRequest this |}.
Definition with_buffer (b : jsstring) (this : JsonRpcStdio) :=
  {| pending := pending this; buffer := b; onRequest := onRequest this |}.
Definition with_onRequest (f : option callback) (this : JsonRpcStdio) :=
  {| pending := pending this; buffer := buffer this; onRequest := f |}.

Section Transport.
Context `{Runtime}.

(** [constructor()]; [onRequest] is not assigned there. *)
Definition new_JsonRpcStdio : JsonRpcStdio :=
  {| pending := ∅; buffer := []; onRequest := None |}.

Definition _handleMessage (msg : value) : M JsonRpcStdio unit :=
  method ← read msg "method";
  if truthy method then
    listener ← gets onRequest;
    match listener with
    | Some f => emit (Call f msg)
    | None => mret tt
    end
  else
    id ← read msg "id";
    if truthy id then
      resolver ← gets (λ this, Map_get (pending this) id);
      match resolver with
      | Some f =>
          emit (Call f msg);;
          modify (λ this, with_pending (Map_delete (pending this) id) this)
      | None => mret tt
      end
    else mret tt.

(** The body of the [while] loop of [_onData] from [if (!line) continue;]
    on: what is done with an extracted, trimmed line. *)
Definition on_line (line : jsstring) : M JsonRpcStdio unit :=
  if bool_decide (line = []) then mret tt
  else
    match JSON_parse line with
    | None =>
        emit (ConsoleError [text "[ERROR] Invalid JSON from client:"; VStr line])
    | Some obj => emit (Classify obj);; _handleMessage obj
    end.

(** One turn of the loop, [idx] being the index of the first newline of the
    buffer. *)
Definition turn (idx : nat) : M JsonRpcStdio unit :=
  line ← gets (λ this, trim (slice (buffer this) 0 idx));
  modify (λ this, with_buffer (slice_from (buffer this) (idx + 1)) this);;
  on_line line.

(** The [while] loop of [_onData]: it ends when the buffer holds no newline,
    or when an exception escapes from [_handleMessage]. *)
Equations? drain (this : JsonRpcStdio) : run JsonRpcStdio unit
  by wf (length (buffer this)) lt :=
  drain this with inspect (indexOf LF (buffer this)) := {
    | exist _ None _ => Run this [] (Returned tt)
    | exist _ (Some idx) Hidx with inspect (turn idx this) := {
      | exist _ (Run this' tr (Returned _)) Hturn => after tr (drain this')
      | exist _ (Run this' tr TypeError) _ => Run this' tr TypeError } }.
Proof.
  (* each turn removes the newline it found; nothing else writes the buffer *)
  assert (Hkeep : ∀ line t, buffer (final (on_line line t)) = buffer t).
  { intros line t.
    unfold on_line, _handleMessage, read, mbind, M_bind, mret, M_ret, gets,
      emit, modify, throw_TypeError, after.
    repeat (case_match; simplify_eq/=); reflexivity. }
  change (length (buffer (final (on_line (trim (slice (buffer this) 0 idx))
    (with_buffer (slice_from (buffer this) (idx + 1)) this)))) <
    length (buffer this))%nat.
  rewrite Hkeep. simpl. unfold slice_from. rewrite length_drop.
  destruct (buffer this); [discriminate|simpl; lia].
Qed.

(** [_onData(chunk)] *)
Definition _onData (chunk : jsstring) : M JsonRpcStdio unit :=
  modify (λ this, with_buffer (buffer this ++ chunk) this);;
  drain.

(** [send(obj)]; it reads no field of the transport. *)
Definition send {S} (obj : value) : M S unit :=
  emit (Stdout (JSON_stringify obj ++ [LF])).

(** The listener installed by the constructor,
    [process.stdin.on('data', (chunk) => this._onData(chunk))], run on the
    chunks that arrive.  An exception that escapes from a listener is not
    caught anywhere: the process ends and no later chunk is delivered. *)
Fixpoint on_data (chunks : list jsstring) : M JsonRpcStdio unit :=
  match chunks with
  | [] => mret tt
  | chunk :: later => _onData chunk;; on_data later
  end.

End Transport.

(** [tail] is what follows the last newline of [s]; all of [s] when [s]
    has no newline. *)
Definition follows_last_newline (s tail : jsstring) : Prop :=
  (LF ∉ tail) ∧ (s = tail ∨ ∃ before, s = before ++ LF :: tail).

(** ** class MCPServer *)

(** How the promise returned by a handler ends. *)
Variant settlement :=
| Fulfilled (result : value)
| Rejected (err : value)
| NeverSettles.

(** The functions given to [setHandler].  The first four are the closures of
    [createServer] that do not use the connection pool; [External] is any
    other handler, a function of its parameters. *)
Variant handler :=
| initialize
| initialized
| resources_templates_list
| tools_list
| External (f : value → settlement).

Record MCPServer := {
  name : value;
  version : value;
  capabilities : value;
  handlers : gmap key handler;
  transport : JsonRpcStdio
}.

Definition with_handlers (h : gmap key handler) (this : MCPServer) :=
  {| name := name this; version := version this;
     capabilities := capabilities this; handlers := h;
     transport := transport this |}.

Section Dispatcher.
Context `{Runtime}.

(** [constructor({ name, version, capabilities })] *)
Definition new_MCPServer (name version capabilities : value) : MCPServer :=
  {| name := name; version := version; capabilities := capabilities;
     handlers := ∅;
     transport := with_onRequest (Some Dispatch) new_JsonRpcStdio |}.

Definition setHandler (method : string) (fn : handler) : M MCPServer unit :=
  modify (λ this, with_handlers (<[KStr (str method) := fn]> (handlers this)) this).

(** The body of a handler, called with [params]; [server] is the object the
    closures of [createServer] refer to. *)
Definition call (server : MCPServer) (fn : handler) (params : value) : settlement :=
  match fn with
  | initialize =>
      Fulfilled (object
        [("protocolVersion", text "2024-11-05");
         ("serverInfo", object [("name", name server);
                                ("version", version server)]);
         ("capabilities", capabilities server);
         ("resourceTemplates", VArr [])])
  | initialized => Fulfilled (object [])
  | resources_templates_list =>
      Fulfilled (object
        [("resourceTemplates", VArr
           [object [("id", text "top10");
                    ("name", text "Top 10 rows");
                    ("uriTemplate", text "mysql://{{database}}/{{table}}")];
            object [("id", text "top100");
                    ("name", text "Top 100 rows");
                    ("uriTemplate", text "mysql://{{database}}/{{table}}")]])])
  | tools_list =>
      Fulfilled (object
        [("tools", VArr
           [object
              [("name", text "query");
               ("description", text "Execute a read-only SELECT query");
               ("inputSchema", object
                  [("type", text "object");
                   ("properties", object
                      [("sql", object
                         [("type", text "string");
                          ("description", text "A SELECT SQL query")])]);
                   ("required", VArr [text "sql"])]);
               ("outputSchema", object
                  [("type", text "object");
                   ("properties", object
                      [("result", object [("type", text "array")])])])]])])
  | External f => f params
  end.

(** The two replies that carry an error; in the first, [name] is the
    method of the request as [+] prints it. *)
Definition method_not_found (id : value) (name : jsstring) : value :=
  object [("jsonrpc", text "2.0"); ("id", id);
          ("error", object
             [("code", VNum (-32601));
              ("message", VStr (str "Method not found: " ++ name))])].

Definition internal_error (id : value) : value :=
  object [("jsonrpc", text "2.0"); ("id", id);
          ("error", object [("code", VNum (-32603));
                            ("message", text "Internal error")])].

Definition success (id result : value) : value :=
  object [("jsonrpc", text "2.0"); ("id", id); ("result", result)].

(** [params || {}] *)
Definition or_empty (params : value) : value :=
  if truthy params then params else object [].

(** [async _onRequest(msg)]: what one activation does, from the call to its
    end, in order.  (Activations for different requests may interleave at the
    [await]s; a handler that never settles leaves its activation suspended
    for ever.)  [handlers.has(method)] is false exactly when
    [handlers.get(method)] finds nothing.  A TypeError that escapes, from the
    first line or from ['Method not found: ' + method], is the rejection of
    the promise that the activation returns; nobody handles it. *)
Definition _onRequest (msg : value) : M MCPServer unit :=
  id ← read msg "id";
  method ← read msg "method";
  params ← read msg "params";
  found ← gets (λ this, Map_get (handlers this) method);
  match found with
  | None =>
      name ← operand method;
      send (method_not_found id name)
  | Some fn =>
      emit (CallHandler method (or_empty params));;
      settled ← gets (λ this, call this fn (or_empty params));
      match settled with
      | Fulfilled result => send (success id result)
      | Rejected err =>
          emit (ConsoleError [text "[ERROR] handler threw"; err]);;
          send (internal_error id)
      | NeverSettles => mret tt
      end
  end.

Definition announce : M MCPServer unit :=
  this ← gets id;
  send (object [("jsonrpc", text "2.0"); ("method", text "mcp/announce");
                ("params", object [("name", name this);
                                   ("version", version this);
                                   ("capabilities", capabilities this)])]).

(** *** createServer *)

Section createServer.
(** The handlers that query the connection pool. *)
Variables resources_list resources_read resources_templates_get tools_call
  : value → settlement.

Definition server_capabilities : value :=
  object [("resources", object [("list", VBool true); ("read", VBool true);
                                ("listChanged", VBool true);
                                ("templates", VBool true)]);
          ("tools", object [("list", VBool true); ("call", VBool true)])].

Definition createServer : run MCPServer unit :=
  (setHandler "initialize" initialize;;
   setHandler "initialized" initialized;;
   setHandler "resources/list" (External resources_list);;
   setHandler "resources/read" (External resources_read);;
   setHandler "resources/templates/list" resources_templates_list;;
   setHandler "resources/templates/get" (External resources_templates_get);;
   setHandler "tools/list" tools_list;;
   setHandler "tools/call" (External tools_call);;
   announce)
  (new_MCPServer (text "mysql-mcp-server") (text "1.0.1") server_capabilities).
End createServer.

End Dispatcher.

(** ** A runtime and inputs to run the code on *)

Module Demo.

(** A string in double quotes; [34] is the quote and [92] the backslash. *)
Definition quote (s : jsstring) : jsstring :=
  [34] ++ flat_map (λ c, if decide (c = 34 ∨ c = 92) then [92; c] else [c]) s
       ++ [34].

(** [JSON.stringify] on values whose strings hold no control character;
    [None] is [undefined]. *)
Fixpoint stringify (v : value) : option jsstring :=
  match v with
  | VUndefined => None
  | VNull => Some (str "null")
  | VBool b => Some (str (if b then "true" else "false"))
  | VNum n => Some (Number_toString n)
  | VStr s => Some (quote s)
  | VArr items =>
      Some (str "[" ++
            (fix elements (l : list value) : jsstring :=
               match l with
               | [] => []
               | x :: rest =>
                   default (str "null") (stringify x) ++
                   match rest with
                   | [] => []
                   | _ :: _ => str "," ++ elements rest
                   end
               end) items ++
            str "]")
  | VObj props =>
      Some (str "{" ++
            (fix members (l : list (jsstring * value)) (first : bool) : jsstring :=
               match l with
               | [] => []
               | (k, x) :: rest =>
                   match stringify x with
                   | None => members rest first
                   | Some t =>
                       (if first then [] else str ",") ++
                       quote k ++ str ":" ++ t ++ members rest false
                   end
               end) props true ++
            str "}")
  end.

(** The messages of the examples. *)
Definition initialize_request : value :=
  object [("jsonrpc", text "2.0"); ("id", VNum 1); ("method", text "initialize");
          ("params", object [])].
Definition nope_request : value :=
  object [("id", VNum 2); ("method", text "nope"); ("params", object [])].
Definition fail_request : value :=
  object [("id", VNum 3); ("method", text "fail")].
Definition initialized_notification : value :=
  object [("jsonrpc", text "2.0"); ("method", text "initialized")].
Definition reply_7 : value :=
  object [("jsonrpc", text "2.0"); ("id", VNum 7); ("result", object [])].
Definition reply_0 : value :=
  object [("jsonrpc", text "2.0"); ("id", VNum 0); ("result", object [])].
Definition quiet_request : value :=
  object [("id", VNum 9); ("method", text "quiet")].


Definition messages : list value :=
  [initialize_request; nope_request; fail_request; initialized_notification;
   reply_7; reply_0; VNull].

(** [JSON.parse] on the lines that are the serialization of one of
    [messages]; on the examples, any other line is not JSON. *)
Definition parse (line : jsstring) : option value :=
  snd <$> list_find (λ v, stringify v = Some line) messages.

Definition runtime : Runtime :=
  {| JSON_parse := parse; JSON_stringify := λ v, default [] (stringify v) |}.

(** The line of a message, as a peer sends it. *)
Definition line_of (msg : value) : jsstring :=
  default [] (stringify msg) ++ [LF].

(** The line that holds the object with the members [jsonrpc], of value
    [2.0], and [result], of value [{}]. *)
Definition bare_result_line : jsstring :=
  str "{" ++ quote (str "jsonrpc") ++ str ":" ++ quote (str "2.0") ++
  str "," ++ quote (str "result") ++ str ":{}}" ++ [LF].

(** The server of [createServer], with pool handlers that never settle. *)
Definition server : MCPServer :=
  final (@createServer runtime (λ _, NeverSettles) (λ _, NeverSettles)
                      (λ _, NeverSettles) (λ _, NeverSettles)).

(** A server with one handler, which fails. *)
Definition failing_server : MCPServer :=
  final (setHandler "fail" (External (λ _, Rejected (text "boom")))
           (new_MCPServer (text "s") (text "0") (object []))).

(** A server with one handler, [async () => {}], which returns nothing. *)
Definition quiet_server : MCPServer :=
  final (setHandler "quiet" (External (λ _, Fulfilled VUndefined))
           (new_MCPServer (text "s") (text "0") (object []))).

(** A transport that awaits the replies to its requests [0] and [7]. *)
Definition waiting : JsonRpcStdio :=
  with_pending (<[KNum 0 := Resolver 0]> (<[KNum 7 := Resolver 1]> ∅))
               new_JsonRpcStdio.

End Demo.


(** ** The handlers of [createServer] that use the connection pool *)

(** More of the JavaScript library. *)
Module JsLib.

(** [a || b] *)
Definition or_else (a b : value) : value := if truthy a then a else b.

(** [String(v)] and [`${v}`]: ToString, where [toString] is tried before
    [valueOf]; on values that hold no function the order makes no
    difference.  [None] where the conversion throws a TypeError. *)
Definition String_ (v : value) : option jsstring := ToString v.

(** [s.replace(pattern, '')] for a string [pattern]: the first occurrence of
    [pattern] is removed. *)
Fixpoint remove_first (pattern s : jsstring) : jsstring :=
  if bool_decide (take (length pattern) s = pattern) then drop (length pattern) s
  else match s with
       | [] => []
       | c :: rest => c :: remove_first pattern rest
       end.

(** [s.split(c)] for a one-character [c]. *)
Fixpoint split (c : N) (s : jsstring) : list jsstring :=
  match s with
  | [] => [[]]
  | x :: rest =>
      if decide (x = c) then [] :: split c rest
      else match split c rest with
           | first :: others => (x :: first) :: others
           | [] => [[x]]
           end
  end.

(** [a[i]] for an array of strings. *)
Definition item (a : list jsstring) (i : nat) : value :=
  from_option VStr VUndefined (a !! i).

(** The class [[a-zA-Z0-9_]]. *)
Definition is_word (c : N) : bool :=
  ((48 <=? c)%N && (c <=? 57)%N) || ((65 <=? c)%N && (c <=? 90)%N) ||
  ((97 <=? c)%N && (c <=? 122)%N) || (c =? 95)%N.

(** [s.replace(/[^a-zA-Z0-9_]/g, '')] *)
Definition sanitize (s : jsstring) : jsstring := filter (λ c, is_word c = true) s.

(** The letters [A] to [Z] in lower case, the other characters unchanged:
    under the flag [i] a letter of the pattern matches its two cases and
    nothing else. *)
Definition lower (c : N) : N :=
  if ((65 <=? c)%N && (c <=? 90)%N) then (c + 32)%N else c.

(** [/^\s*SELECT\s+/i.test(s)]; [\s] is the class that [trim] strips. *)
Definition starts_with_select (s : jsstring) : bool :=
  let s' := trim_start s in
  bool_decide (lower <$> take 6 s' = str "select") &&
  match drop 6 s' with
  | c :: _ => is_white_space c
  | [] => false
  end.

(** An object made by [new Error(message)], shown by its message, and a
    TypeError made by the engine, whose message depends on the engine. *)
Definition Error_ (message : string) : value := object [("message", text message)].
Definition TypeError_ : value := object [("name", text "TypeError")].

End JsLib.
Import JsLib.

(** The built-in functions that the pool handlers call beside those of
    [Runtime]: [Number(v)], [None] where it throws a TypeError, and
    [JSON.stringify(v, null, 2)] for a [v] that is not [undefined]. *)
Class Library := {
  Number_ : value → option value;
  JSON_stringify_indented : value → jsstring
}.

(** What [await pool.query(sql, values)] gives: rows (the promise is fulfilled
    with the pair of the rows and the fields), an error, or nothing ever. *)
Variant answer :=
| Rows (rows : value)
| Fails (err : value)
| NoAnswer.

(** The connection pool of [mysql2]: what it answers to a query.  [values] is
    [None] when [query] is called with the text alone. *)
Definition Pool : Type := jsstring → option (list value) → answer.

(** A call of a handler: the queries it sent to the pool, in order, and how
    its promise ends. *)
Record exchange := Exchange {
  queries : list (jsstring * option (list value));
  settled : settlement
}.

Record Config := {
  host : value;
  user : value;
  password : value;
  database : value;
  port : value
}.

(** [safeString(v)]; [None] where [String] throws. *)
Definition safeString (v : value) : option jsstring :=
  match v with
  | VNull | VUndefined => Some []
  | _ => String_ v
  end.

Section Handlers.
Context `{Runtime} `{Library}.
Variable config : Config.
Variable pool : Pool.

(** A handler that ends without a query. *)
Definition returns (v : value) : exchange := Exchange [] (Fulfilled v).
Definition throws (err : value) : exchange := Exchange [] (Rejected err).

(** [const [rows] = await pool.query(sql, values); ...then...] *)
Definition query (sql : jsstring) (values : option (list value))
    (then_ : value → settlement) : exchange :=
  Exchange [(sql, values)]
           match pool sql values with
           | Rows rows => then_ rows
           | Fails err => Rejected err
           | NoAnswer => NeverSettles
           end.

(** [JSON.stringify(rows)] and [JSON.stringify(rows, null, 2)], which are
    [undefined] for [undefined]. *)
Definition stringified (rows : value) : value :=
  match rows with
  | VUndefined => VUndefined
  | _ => VStr (JSON_stringify rows)
  end.
Definition stringified_indented (rows : value) : value :=
  match rows with
  | VUndefined => VUndefined
  | _ => VStr (JSON_stringify_indented rows)
  end.

(** The resource of a row [t] of [information_schema.tables]: the function
    given to [tables.map]; [None] where it throws a TypeError. *)
Definition resource_of (t : value) : option value :=
  TABLE_NAME ← prop t (str "TABLE_NAME");
  table_name ← prop t (str "table_name");
  Table_name ← prop t (str "Table_name");
  tableName ← safeString (or_else (or_else TABLE_NAME table_name) Table_name);
  db ← String_ (database config);
  Some (object
    [("uri", VStr (str "mysql://" ++ db ++ str "/" ++ tableName));
     ("name", VStr tableName);
     ("description", VStr (str "MySQL table " ++ tableName ++ str " in " ++ db));
     ("mimeType", text "application/json")]).

(** The handler of [resources/list]. *)
Definition resources_list (params : value) : exchange :=
  query (str "SELECT table_name FROM information_schema.tables WHERE table_schema = ?")
        (Some [database config])
        (λ tables,
           match tables with
           | VArr rows =>
               match mapM resource_of rows with
               | Some resources => Fulfilled (object [("resources", VArr resources)])
               | None => Rejected TypeError_
               end
           | _ => Rejected TypeError_
           end).

(** The table that a uri names, ready to be put between backquotes: the
    lines [const parts = ...], [const table = ...] and [const sanitized = ...]
    of [resources/read] and of [resources/templates/get].  [None] where one
    of them throws a TypeError: [uri] or [table] has no method [replace]. *)
Definition table_of (uri : value) : option jsstring :=
  match uri with
  | VStr u =>
      let parts := split 47 (remove_first (str "mysql://") u) in
      match or_else (item parts 1) (item parts 0) with
      | VStr table => Some (sanitize table)
      | _ => None
      end
  | _ => None
  end.

(** A parameter with a default value: the default replaces [undefined]. *)
Definition defaulted (default_ v : value) : value :=
  match v with
  | VUndefined => default_
  | _ => v
  end.

(** The handler of [resources/read]. *)
Definition resources_read (params : value) : exchange :=
  match prop params (str "uri"), prop params (str "limit"),
        prop params (str "offset") with
  | Some uri, Some limit, Some offset =>
      if negb (truthy uri) then throws (Error_ "uri required")
      else
        match table_of uri with
        | None => throws TypeError_
        | Some sanitized =>
            match Number_ (defaulted (VNum 100) limit),
                  Number_ (defaulted (VNum 0) offset) with
            | Some limit', Some offset' =>
                query (str "SELECT * FROM `" ++ sanitized ++ str "` LIMIT ? OFFSET ?")
                      (Some [limit'; offset'])
                      (λ rows,
                         Fulfilled (object
                           [("contents", VArr
                              [object [("uri", uri);
                                       ("mimeType", text "application/json");
                                       ("text", stringified_indented rows)]])]))
            | _, _ => throws TypeError_
            end
        end
  | _, _, _ => throws TypeError_
  end.

(** The handler of [resources/templates/get]. *)
Definition resources_templates_get (params : value) : exchange :=
  match prop params (str "uri"), prop params (str "templateId") with
  | Some uri, Some templateId =>
      if negb (truthy uri) || negb (truthy templateId)
      then throws (Error_ "uri and templateId required")
      else
        match table_of uri with
        | None => throws TypeError_
        | Some sanitized =>
            let limit :=
              match templateId with
              | VStr s => if bool_decide (s = str "top100") then 100%Z else 10%Z
              | _ => 10%Z
              end in
            query (str "SELECT * FROM `" ++ sanitized ++ str "` LIMIT ?")
                  (Some [VNum limit])
                  (λ rows,
                     Fulfilled (object
                       [("resourceTemplate", object
                          [("uri", uri); ("contents", stringified rows)])]))
        end
  | _, _ => throws TypeError_
  end.

(** The handler of [tools/call]. *)
Definition tools_call (params : value) : exchange :=
  match prop params (str "name"), prop params (str "arguments") with
  | Some name, Some args =>
      if negb match name with
              | VStr s => bool_decide (s = str "query")
              | _ => false
              end
      then returns (object [("error", text "Unknown tool")])
      else
        let sql_of_args :=
          match args with
          | VUndefined | VNull => VUndefined
          | _ => default VUndefined (prop args (str "sql"))
          end in
        match String_ (or_else sql_of_args (text "")) with
        | None => throws TypeError_
        | Some sql =>
            if negb (starts_with_select sql)
            then returns (object [("error", text "Only SELECT queries allowed")])
            else query sql None (λ rows, Fulfilled (object [("result", rows)]))
        end
  | _, _ => throws TypeError_
  end.

(** The server that [createServer(config)] makes on [pool]. *)
Definition mysql_server : MCPServer :=
  final (createServer (settled ∘ resources_list) (settled ∘ resources_read)
                      (settled ∘ resources_templates_get) (settled ∘ tools_call)).

End Handlers.

(** ** Readings of a trace of the transport *)

(** The lines [lines], handled one after the other as the loop of [_onData]
    handles a line once it is extracted. *)
Fixpoint each_line `{Runtime} (lines : list jsstring) : M JsonRpcStdio unit :=
  match lines with
  | [] => mret tt
  | line :: later => on_line (trim line);; each_line later
  end.

(** The text made of [lines], each one ended by a newline. *)
Definition terminated (lines : list jsstring) : jsstring :=
  flat_map (λ line, line ++ [LF]) lines.

(** Whether [msg.method] is truthy: the test by which [_handleMessage] tells
    a request from a reply. *)
Definition is_request (msg : value) : bool :=
  match prop msg (str "method") with
  | Some method => truthy method
  | None => false
  end.

(** The calls of callbacks with a message that is not a request: the calls of
    completion callbacks. *)
Definition completions (tr : list effect) : list (callback * value) :=
  omap (λ e, match e with
             | Call f msg => if is_request msg then None else Some (f, msg)
             | _ => None
             end) tr.

(** What the transport may do, [s] being its fields before, [tr] its effects
    and [s'] its fields after: it keeps its listener and adds no entry to
    [pending]; each call of a completion callback takes one entry away; the
    listener is called with requests only, a completion callback only with a
    message whose truthy id had that callback in [pending]. *)
Definition accounted (s : JsonRpcStdio) (tr : list effect) (s' : JsonRpcStdio)
    : Prop :=
  onRequest s' = onRequest s ∧
  pending s' ⊆ pending s ∧
  (length (completions tr) + size (pending s') = size (pending s))%nat ∧
  ∀ f msg, Call f msg ∈ tr →
    if is_request msg then onRequest s = Some f
    else ∃ id, prop msg (str "id") = Some id ∧ truthy id = true ∧
               Map_get (pending s) id = Some f.

(** The names under which [createServer] registers a handler. *)
Definition registered_names : list string :=
  ["initialize"; "initialized"; "resources/list"; "resources/read";
   "resources/templates/list"; "resources/templates/get"; "tools/list";
   "tools/call"].

(** The member [k] that [JSON.stringify] writes for the object [v]: a
    property of its own whose value is not [undefined]. *)
Definition member (k : string) (v : value) : option value :=
  match v with
  | VObj props =>
      match own (str k) props with
      | Some VUndefined | None => None
      | Some x => Some x
      end
  | _ => None
  end.

(** How the handler that [this] has for the request [msg] ends, where there
    is one. *)
Definition handled (this : MCPServer) (msg : value) : option settlement :=
  method ← prop msg (str "method");
  params ← prop msg (str "params");
  fn ← Map_get (handlers this) method;
  Some (call this fn (or_empty params)).

(** ** A library, a pool and requests to run the pool handlers on *)

Module Sample.

(** [Number] on numbers, [null] and booleans (the examples convert nothing
    else), and [JSON.stringify(v, null, 2)] on the values that it prints on
    one line (the examples print nothing else). *)
Definition library : Library :=
  {| Number_ := λ v, match v with
                     | VNum n => Some (VNum n)
                     | VNull => Some (VNum 0)
                     | VBool b => Some (VNum (if b then 1 else 0))
                     | _ => None
                     end;
     JSON_stringify_indented := λ v, default [] (Demo.stringify v) |}.

Definition config : Config :=
  {| host := text "localhost"; user := text "root"; password := text "";
     database := text "shop"; port := VNum 3306 |}.

(** A pool with one table, [users], that has no row, and that fails on the
    query [SELECT crash ]. *)
Definition pool : Pool := λ sql values,
  if bool_decide (sql = str "SELECT table_name FROM information_schema.tables WHERE table_schema = ?")
  then Rows (VArr [object [("TABLE_NAME", text "users")]])
  else if bool_decide (sql = str "SELECT crash ")
  then Fails (text "gone away")
  else Rows (VArr []).

Definition server : MCPServer :=
  @mysql_server Demo.runtime library config pool.

(** A server with one handler, which returns its parameters. *)
Definition echo : handler := External (λ params, Fulfilled params).
Definition echo_server : MCPServer :=
  final (setHandler "echo" echo (new_MCPServer (text "s") (text "0") (object []))).

Definition echo_request : value :=
  object [("id", VNum 3); ("method", text "echo");
          ("params", object [("x", VNum 1)])].
Definition read_request : value :=
  object [("id", VNum 4); ("method", text "resources/read")].
Definition drop_request : value :=
  object [("id", VNum 5); ("method", text "tools/call");
          ("params", object [("name", text "drop")])].
Definition select_request : value :=
  object [("id", VNum 6); ("method", text "tools/call");
          ("params", object
             [("name", text "query");
              ("arguments", object [("sql", text "SELECT crash ")])])].

End Sample.


(** * Properties *)

(** ** Strings *)

Lemma indexOf_None c (s : jsstring) : indexOf c s = None ↔ c ∉ s.
Proof.
  induction s as [|x s IH]; simpl.
  - split; [intros _; apply not_elem_of_nil|done].
  - rewrite not_elem_of_cons. case_decide as Hx.
    + split; [done|]. intros [Hne _]. by destruct Hne.
    + destruct (indexOf c s); simpl.
      * split; [done|]. intros [_ Hs]. by apply IH in Hs.
      * split; [|done]. intros _. split; [done|]. by apply IH.
Qed.

Lemma indexOf_first c (line rest : jsstring) :
  c ∉ line → indexOf c (line ++ c :: rest) = Some (length line).
Proof.
  induction line as [|x line IH]; simpl; intros Hc.
  - by rewrite decide_True.
  - apply not_elem_of_cons in Hc as [Hx Hline].
    rewrite decide_False by done. by rewrite IH.
Qed.

Lemma indexOf_Some c (s : jsstring) idx :
  indexOf c s = Some idx →
  ∃ line rest, s = line ++ c :: rest ∧ (c ∉ line) ∧ idx = length line.
Proof.
  revert idx. induction s as [|x s IH]; simpl; intros idx; [done|].
  case_decide as Hx.
  - intros [= <-]. exists [], s. subst x. split_and!; [done| |done].
    apply not_elem_of_nil.
  - destruct (indexOf c s) as [i|]; [|done]. simpl. intros [= <-].
    destruct (IH i eq_refl) as (line & rest & -> & Hline & ->).
    exists (x :: line), rest. split_and!; [done| |done].
    apply not_elem_of_cons. split; [congruence|done].
Qed.

Lemma slice_line (line rest : jsstring) c :
  slice (line ++ c :: rest) 0 (length line) = line.
Proof.
  unfold slice. rewrite drop_0, Nat.sub_0_r. by rewrite take_app_length.
Qed.

Lemma slice_from_rest (line rest : jsstring) c :
  slice_from (line ++ c :: rest) (length line + 1) = rest.
Proof.
  unfold slice_from. rewrite Nat.add_1_r.
  rewrite cons_middle, app_assoc.
  apply drop_app_length'. rewrite length_app. simpl. lia.
Qed.

(** ** Runs *)

Section run_facts.
Context {S A : Type}.
Implicit Types (r : run S A) (tr : list effect).

Lemma after_nil r : after [] r = r.
Proof. by destruct r. Qed.

Lemma after_after tr1 tr2 r : after tr1 (after tr2 r) = after (tr1 ++ tr2) r.
Proof. unfold after. simpl. by rewrite app_assoc. Qed.

Lemma bind_eq {B} (m : M S A) (k : A → M S B) this :
  (m ≫= k) this =
  match m this with
  | Run this' tr (Returned a) => after tr (k a this')
  | Run this' tr TypeError => Run this' tr TypeError
  end.
Proof. reflexivity. Qed.

Lemma bind_returned {B} (m : M S A) (k : A → M S B) this this' tr a :
  m this = Run this' tr (Returned a) → (m ≫= k) this = after tr (k a this').
Proof. unfold mbind, M_bind. by intros ->. Qed.

Lemma bind_threw {B} (m : M S A) (k : A → M S B) this this' tr :
  m this = Run this' tr TypeError → (m ≫= k) this = Run this' tr TypeError.
Proof. unfold mbind, M_bind. by intros ->. Qed.

Lemma same_behaviour_refl r : same_behaviour r r.
Proof. by repeat split. Qed.

Lemma same_behaviour_sym r1 r2 : same_behaviour r1 r2 → same_behaviour r2 r1.
Proof.
  intros (Ht & Ho & Hf). split_and!; [done..|].
  intros Hr. symmetry. apply Hf. congruence.
Qed.

Lemma same_behaviour_trans r1 r2 r3 :
  same_behaviour r1 r2 → same_behaviour r2 r3 → same_behaviour r1 r3.
Proof.
  intros (Ht & Ho & Hf) (Ht' & Ho' & Hf'). split_and!; [congruence..|].
  intros Hr. rewrite Hf by done. apply Hf'. congruence.
Qed.

Lemma same_behaviour_after tr r1 r2 :
  same_behaviour r1 r2 → same_behaviour (after tr r1) (after tr r2).
Proof.
  intros (Ht & Ho & Hf). unfold after. split_and!; simpl; [congruence..|done].
Qed.

Lemma same_behaviour_bind {B} (m : M S B) (k1 k2 : B → M S A) this :
  (∀ b t, same_behaviour (k1 b t) (k2 b t)) →
  same_behaviour ((m ≫= k1) this) ((m ≫= k2) this).
Proof.
  intros Hk. unfold mbind, M_bind. destruct (m this) as [t tr [b|]].
  - by apply same_behaviour_after.
  - apply same_behaviour_refl.
Qed.
End run_facts.

(** ** The transport *)

Section transport_facts.
Context `{Runtime}.
Implicit Types (this : JsonRpcStdio) (line rest chunk : jsstring).

Lemma drain_eq this :
  drain this =
  match indexOf LF (buffer this) with
  | None => Run this [] (Returned tt)
  | Some idx => (turn idx ;; drain) this
  end.
Proof.
  funelim (drain this).
  - by rewrite e.
  - rewrite Hidx. erewrite bind_returned by exact Hturn. done.
  - rewrite Hidx. erewrite bind_threw by exact e. done.
Qed.

Lemma _onData_eq chunk this :
  _onData chunk this = drain (with_buffer (buffer this ++ chunk) this).
Proof. unfold _onData. erewrite bind_returned by reflexivity. apply after_nil. Qed.

Lemma turn_line this line rest :
  buffer this = line ++ LF :: rest → LF ∉ line →
  turn (length line) this = on_line (trim line) (with_buffer rest this).
Proof.
  intros Hbuf Hline. unfold turn.
  erewrite bind_returned by reflexivity. erewrite bind_returned by reflexivity.
  rewrite !after_nil. simpl. by rewrite Hbuf, slice_line, slice_from_rest.
Qed.

Lemma drain_line this line rest :
  buffer this = line ++ LF :: rest → LF ∉ line →
  drain this = (on_line (trim line) ;; drain) (with_buffer rest this).
Proof.
  intros Hbuf Hline. rewrite drain_eq, Hbuf, indexOf_first by done.
  unfold mbind, M_bind. by rewrite (turn_line this line rest).
Qed.

Lemma drain_no_line this :
  LF ∉ buffer this → drain this = Run this [] (Returned tt).
Proof. intros Hbuf. rewrite drain_eq. by apply indexOf_None in Hbuf as ->. Qed.

(** Nothing in [_handleMessage], hence nothing in [on_line], reads or
    writes the buffer. *)
Lemma _handleMessage_buffer msg b this :
  _handleMessage msg (with_buffer b this) =
  let r := _handleMessage msg this in
  Run (with_buffer b (final r)) (trace r) (outcome r).
Proof.
  unfold _handleMessage, read, mbind, M_bind, mret, M_ret, gets, emit, modify,
    throw_TypeError, after.
  repeat (case_match; simplify_eq/=); reflexivity.
Qed.

Lemma on_line_buffer line b this :
  on_line line (with_buffer b this) =
  let r := on_line line this in
  Run (with_buffer b (final r)) (trace r) (outcome r).
Proof.
  unfold on_line. repeat case_match; try reflexivity.
  rewrite !bind_eq. simpl. rewrite _handleMessage_buffer.
  by destruct (_handleMessage _ this) as [t tr [[]|]].
Qed.

Lemma on_line_keeps_buffer line this :
  buffer (final (on_line line this)) = buffer this.
Proof.
  unfold on_line, _handleMessage, read, mbind, M_bind, mret, M_ret, gets,
    emit, modify, throw_TypeError, after.
  repeat (case_match; simplify_eq/=); reflexivity.
Qed.
End transport_facts.

Section framing.
Context `{Runtime}.
Implicit Types (this : JsonRpcStdio) (line rest chunk : jsstring).

(** Draining a buffer to which [chunk] was appended is draining the buffer,
    then receiving [chunk]. *)
Lemma drain_app chunk this :
  same_behaviour (drain (with_buffer (buffer this ++ chunk) this))
                 ((drain ;; _onData chunk) this).
Proof.
  remember (length (buffer this)) as n eqn:Hn.
  revert this Hn. induction (lt_wf n) as [n _ IH]. intros this ->.
  destruct (indexOf LF (buffer this)) as [idx|] eqn:Hidx.
  - apply indexOf_Some in Hidx as (line & rest & Hbuf & Hline & _).
    rewrite (bind_eq drain), (drain_line this line rest) by done.
    rewrite (drain_line (with_buffer (buffer this ++ chunk) this) line
               (rest ++ chunk)) by (by simpl; rewrite ?Hbuf, <- ?app_assoc).
    rewrite !bind_eq. simpl.
    rewrite (on_line_buffer _ (rest ++ chunk) this).
    rewrite (on_line_buffer _ rest this). simpl.
    pose proof (on_line_keeps_buffer (trim line) this) as Hkeep.
    destruct (on_line (trim line) this) as [t tr [[]|]]; simpl in *.
    + eapply same_behaviour_trans.
      { apply same_behaviour_after.
        apply (IH (length rest)) with (this := with_buffer rest t); [|done].
        rewrite Hbuf, length_app. simpl. lia. }
      rewrite bind_eq.
      destruct (drain (with_buffer rest t)) as [t' tr' [[]|]]; simpl.
      * rewrite after_after. apply same_behaviour_refl.
      * apply same_behaviour_refl.
    + by repeat split.
  - apply indexOf_None in Hidx.
    rewrite bind_eq, (drain_no_line this) by done.
    rewrite after_nil, _onData_eq.
    apply same_behaviour_refl.
Qed.

Lemma _onData_app chunk later this :
  same_behaviour (_onData (chunk ++ later) this)
                 ((_onData chunk ;; _onData later) this).
Proof.
  rewrite _onData_eq, bind_eq, (_onData_eq chunk).
  pose proof (drain_app later (with_buffer (buffer this ++ chunk) this)) as Happ.
  simpl in Happ. rewrite <- app_assoc in Happ. by rewrite bind_eq in Happ.
Qed.

Lemma on_data_concat chunk later this :
  same_behaviour (on_data (chunk :: later) this)
                 (_onData (chunk ++ concat later) this).
Proof.
  revert chunk this. induction later as [|next later IH]; intros chunk this.
  - simpl. rewrite app_nil_r, bind_eq.
    destruct (_onData chunk this) as [t tr [[]|]]; simpl.
    + unfold after. simpl. rewrite app_nil_r. apply same_behaviour_refl.
    + apply same_behaviour_refl.
  - eapply same_behaviour_trans; [|apply same_behaviour_sym, _onData_app].
    change (on_data (chunk :: next :: later))
      with (_onData chunk ;; on_data (next :: later)).
    apply same_behaviour_bind. intros _ t. apply IH.
Qed.

(** C4.  Framing does not depend on where the input is cut into chunks:
    delivering the chunks [chunk :: later] one at a time produces the same
    effects in the same order (the same messages classified, handed to the
    request listener and to the completion callbacks, the same lines logged
    as invalid) as delivering their concatenation at once, ends the same
    way, and leaves the transport in the same state when it returns. *)
Theorem framing_independent_of_chunking chunk later this :
  let split := on_data (chunk :: later) this in
  let whole := _onData (chunk ++ concat later) this in
  trace split = trace whole ∧
  outcome split = outcome whole ∧
  (outcome split = Returned tt → final split = final whole).
Proof.
  destruct (on_data_concat chunk later this) as (Ht & Ho & Hf).
  split_and!; [done..|].
  intros Hret. apply Hf. by rewrite Hret.
Qed.
End framing.

Section lines.
Context `{Runtime}.
Implicit Types (this : JsonRpcStdio) (line rest chunk : jsstring).

(** C7.  When the line that [_onData] extracts is not empty once trimmed
    and [JSON.parse] rejects it, the only thing done for that line is one
    [console.error] entry; nothing is written, no message is classified, no
    listener is called and no field but the buffer changes, and the rest of
    the input is then processed exactly as it would be had the line never
    been there. *)
Theorem invalid_line_logged_and_skipped this chunk line rest :
  buffer this ++ chunk = line ++ LF :: rest →
  LF ∉ line →
  trim line ≠ [] →
  JSON_parse (trim line) = None →
  _onData chunk this =
  after [ConsoleError [text "[ERROR] Invalid JSON from client:"; VStr (trim line)]]
        (_onData rest (with_buffer [] this)).
Proof.
  intros Hbuf Hline Hne Hparse. rewrite !_onData_eq.
  rewrite (drain_line _ line rest) by done.
  rewrite bind_eq. unfold on_line.
  rewrite bool_decide_false, Hparse by done. reflexivity.
Qed.

(** C8.  When the line that [_onData] extracts is empty once trimmed,
    nothing at all is done for it: no message, no log entry, no exception,
    and no field but the buffer changes; the rest of the input is processed
    as if the line had not been there. *)
Theorem blank_line_skipped this chunk line rest :
  buffer this ++ chunk = line ++ LF :: rest →
  LF ∉ line →
  trim line = [] →
  _onData chunk this = _onData rest (with_buffer [] this).
Proof.
  intros Hbuf Hline Hblank. rewrite !_onData_eq.
  rewrite (drain_line _ line rest) by done.
  rewrite bind_eq. unfold on_line.
  rewrite bool_decide_true by done. simpl. apply after_nil.
Qed.

Lemma drain_leaves_tail this :
  outcome (drain this) = Returned tt →
  follows_last_newline (buffer this) (buffer (final (drain this))).
Proof.
  remember (length (buffer this)) as n eqn:Hn.
  revert this Hn. induction (lt_wf n) as [n _ IH]. intros this -> Hret.
  destruct (indexOf LF (buffer this)) as [idx|] eqn:Hidx.
  - apply indexOf_Some in Hidx as (line & rest & Hbuf & Hline & _).
    rewrite (drain_line this line rest) in Hret |- * by done.
    rewrite bind_eq in Hret |- *.
    pose proof (on_line_keeps_buffer (trim line) (with_buffer rest this)) as Hkeep.
    destruct (on_line (trim line) (with_buffer rest this)) as [t tr [[]|]];
      simpl in *; [|done].
    assert (length rest < length (buffer this))%nat as Hlt.
    { rewrite Hbuf, length_app. simpl. lia. }
    destruct (IH _ Hlt t (f_equal length (eq_sym Hkeep)) Hret) as (Hno & Htail).
    split; [done|]. right. rewrite Hbuf, Hkeep in *.
    destruct Htail as [->|(before & ->)].
    + by exists line.
    + exists (line ++ LF :: before). by rewrite <- app_assoc.
  - apply indexOf_None in Hidx. rewrite drain_no_line by done.
    split; [done|by left].
Qed.

Lemma _onData_leaves_tail chunk this :
  outcome (_onData chunk this) = Returned tt →
  follows_last_newline (buffer this ++ chunk) (buffer (final (_onData chunk this))).
Proof. rewrite _onData_eq. apply drain_leaves_tail. Qed.

(** C10.  Whenever [_onData] has returned, the buffer holds no newline, and
    it is exactly what follows the last newline of everything received
    since the transport was constructed (everything received, if no newline
    came): no input is lost and no complete line is left unprocessed. *)
Theorem buffer_is_unterminated_tail chunks this :
  buffer this = [] →
  outcome (on_data chunks this) = Returned tt →
  follows_last_newline (concat chunks) (buffer (final (on_data chunks this))).
Proof.
  intros Hfresh Hret. destruct chunks as [|chunk later].
  - simpl. rewrite Hfresh. split; [apply not_elem_of_nil|by left].
  - destruct (on_data_concat chunk later this) as (_ & Hout & Hfin).
    rewrite Hfin by (by rewrite Hret). rewrite Hout in Hret.
    apply _onData_leaves_tail in Hret. by rewrite Hfresh in Hret.
Qed.
End lines.

(** ** Classification of replies *)

#[local] Arguments truthy : simpl nomatch.

(** Runs the code of a method as far as the goal determines it. *)
Ltac run_code :=
  unfold mbind, M_bind, mret, M_ret, gets, modify, emit, throw_TypeError, send,
    after;
  simpl.

Section replies.
Implicit Types (this : JsonRpcStdio) (msg id : value).

Lemma Map_get_delete {A} (m : gmap key A) id : Map_get (Map_delete m id) id = None.
Proof.
  unfold Map_get, Map_delete. destruct (to_key id) as [k|]; simpl; [|done].
  apply lookup_delete_eq.
Qed.

Lemma reply_to_pending this msg id f :
  prop msg (str "method") = Some VUndefined →
  prop msg (str "id") = Some id →
  truthy id = true →
  Map_get (pending this) id = Some f →
  _handleMessage msg this =
  Run (with_pending (Map_delete (pending this) id) this) [Call f msg] (Returned tt).
Proof.
  intros Hmethod Hid Htruthy Hget.
  unfold _handleMessage, read. rewrite Hmethod, Hid. run_code.
  by rewrite Htruthy, Hget.
Qed.

Lemma reply_to_nobody this msg id :
  prop msg (str "method") = Some VUndefined →
  prop msg (str "id") = Some id →
  Map_get (pending this) id = None →
  _handleMessage msg this = Run this [] (Returned tt).
Proof.
  intros Hmethod Hid Hget.
  unfold _handleMessage, read. rewrite Hmethod, Hid. run_code.
  destruct (truthy id); [|done]. by rewrite Hget.
Qed.

(** C5, as the code has it.  For a message with no method whose id is
    truthy (any id but [0], [''], [false] and [null]): when [pending] has an
    entry for the id, its callback is called with the message, once, and
    the entry is removed, so that the same reply arriving again finds
    nothing, calls nothing and changes nothing; when [pending] has no entry
    for the id, the message is dropped: no effect, no exception, no change
    of state. *)
Theorem reply_completes_pending_once this msg id :
  prop msg (str "method") = Some VUndefined →
  prop msg (str "id") = Some id →
  truthy id = true →
  let r := _handleMessage msg this in
  match Map_get (pending this) id with
  | Some f =>
      r = Run (with_pending (Map_delete (pending this) id) this)
              [Call f msg] (Returned tt) ∧
      Map_get (pending (final r)) id = None ∧
      _handleMessage msg (final r) = Run (final r) [] (Returned tt)
  | None => r = Run this [] (Returned tt)
  end.
Proof.
  intros Hmethod Hid Htruthy r. subst r.
  destruct (Map_get (pending this) id) as [f|] eqn:Hget.
  - rewrite (reply_to_pending this msg id f) by done. simpl.
    split_and!; [done|apply Map_get_delete|].
    apply (reply_to_nobody _ msg id); [done..|]. apply Map_get_delete.
  - by apply (reply_to_nobody this msg id).
Qed.
End replies.

(** ** The dispatcher *)

Section dispatcher_facts.
Context `{Runtime}.
Implicit Types (this : MCPServer) (msg id method params : value).

Lemma Map_has_false {A} (m : gmap key A) k :
  Map_has m k = false ↔ Map_get m k = None.
Proof.
  unfold Map_has. rewrite bool_decide_eq_false. symmetry.
  apply eq_None_not_Some.
Qed.

Lemma _onRequest_unknown this msg id method name :
  prop msg (str "id") = Some id →
  prop msg (str "method") = Some method →
  Map_has (handlers this) method = false →
  ToString method = Some name →
  _onRequest msg this =
  Run this [Stdout (JSON_stringify (method_not_found id name) ++ [LF])]
      (Returned tt).
Proof.
  intros Hid Hmethod Hget%Map_has_false Hname.
  unfold _onRequest, read. rewrite Hid, Hmethod.
  assert (∃ params, prop msg (str "params") = Some params) as [params ->].
  { destruct msg; simpl in *; try done; eauto. }
  run_code. rewrite Hget. unfold operand. rewrite Hname. by run_code.
Qed.

(** Where ['Method not found: ' + method] throws, nothing is sent. *)
Lemma _onRequest_unprintable this msg id method :
  prop msg (str "id") = Some id →
  prop msg (str "method") = Some method →
  Map_has (handlers this) method = false →
  ToString method = None →
  _onRequest msg this = Run this [] TypeError.
Proof.
  intros Hid Hmethod Hget%Map_has_false Hname.
  unfold _onRequest, read. rewrite Hid, Hmethod.
  assert (∃ params, prop msg (str "params") = Some params) as [params ->].
  { destruct msg; simpl in *; try done; eauto. }
  run_code. rewrite Hget. unfold operand. by rewrite Hname.
Qed.

(** A value that is no array and no object prints. *)
Lemma ToString_primitive v : is_Some (to_key v) → is_Some (ToString v).
Proof. destruct v as [| |[]| | | |]; simpl; intros [? ?]; by eauto. Qed.

Lemma _onRequest_known this msg id method params fn :
  prop msg (str "id") = Some id →
  prop msg (str "method") = Some method →
  prop msg (str "params") = Some params →
  Map_get (handlers this) method = Some fn →
  _onRequest msg this =
  Run this
      (CallHandler method (or_empty params) ::
       match call this fn (or_empty params) with
       | Fulfilled result =>
           [Stdout (JSON_stringify (success id result) ++ [LF])]
       | Rejected err =>
           [ConsoleError [text "[ERROR] handler threw"; err];
            Stdout (JSON_stringify (internal_error id) ++ [LF])]
       | NeverSettles => []
       end)
      (Returned tt).
Proof.
  intros Hid Hmethod Hparams Hget.
  unfold _onRequest, read. rewrite Hid, Hmethod, Hparams.
  run_code. rewrite Hget.
  by destruct (call this fn _).
Qed.

Lemma prop_whole msg k v :
  prop msg (str k) = Some v → ∀ k', is_Some (prop msg k').
Proof. destruct msg; simpl; intros ? k'; try done; eauto. Qed.

(** The four ways in which [_onRequest] runs. *)
Lemma _onRequest_cases msg this :
  (prop msg (str "id") = None ∧ _onRequest msg this = Run this [] TypeError) ∨
  (∃ id method name,
     prop msg (str "id") = Some id ∧ prop msg (str "method") = Some method ∧
     Map_has (handlers this) method = false ∧
     ToString method = Some name ∧
     _onRequest msg this =
     Run this [Stdout (JSON_stringify (method_not_found id name) ++ [LF])]
         (Returned tt)) ∨
  (∃ id method,
     prop msg (str "id") = Some id ∧ prop msg (str "method") = Some method ∧
     Map_has (handlers this) method = false ∧
     ToString method = None ∧
     _onRequest msg this = Run this [] TypeError) ∨
  (∃ id method params fn,
     prop msg (str "id") = Some id ∧ prop msg (str "method") = Some method ∧
     prop msg (str "params") = Some params ∧
     Map_get (handlers this) method = Some fn ∧
     _onRequest msg this =
     Run this
         (CallHandler method (or_empty params) ::
          match call this fn (or_empty params) with
          | Fulfilled result =>
              [Stdout (JSON_stringify (success id result) ++ [LF])]
          | Rejected err =>
              [ConsoleError [text "[ERROR] handler threw"; err];
               Stdout (JSON_stringify (internal_error id) ++ [LF])]
          | NeverSettles => []
          end)
         (Returned tt)).
Proof.
  destruct (prop msg (str "id")) as [id|] eqn:Hid.
  2:{ left. split; [done|]. unfold _onRequest, read. by rewrite Hid. }
  right.
  destruct (prop_whole msg _ _ Hid (str "method")) as [method Hmethod].
  destruct (prop_whole msg _ _ Hid (str "params")) as [params Hparams].
  destruct (Map_get (handlers this) method) as [fn|] eqn:Hget.
  - right. right. exists id, method, params, fn. split_and!; [done..|].
    by apply _onRequest_known.
  - apply Map_has_false in Hget.
    destruct (ToString method) as [name|] eqn:Hname.
    + left. exists id, method, name. split_and!; [done..|].
      by apply (_onRequest_unknown this msg id method).
    + right. left. exists id, method. split_and!; [done..|].
      by apply (_onRequest_unprintable this msg id method).
Qed.

(** The members of a reply. *)
Lemma reply_members this msg out :
  handled this msg ≠ Some (Fulfilled VUndefined) →
  out ∈ written (trace (_onRequest msg this)) →
  ∃ reply,
    out = JSON_stringify reply ++ [LF] ∧
    ((∃ result, handled this msg = Some (Fulfilled result) ∧
                member "result" reply = Some result) ∧
     member "error" reply = None
     ∨
     member "result" reply = None ∧
     ∃ code message,
       member "error" reply
       = Some (object [("code", VNum code); ("message", VStr message)])).
Proof.
  intros Hdefined.
  destruct (_onRequest_cases msg this)
    as [(_ & ->)|[(id & method & name & _ & _ & _ & _ & ->)
                 |[(id & method & _ & _ & _ & _ & ->)
                  |(id & method & params & fn & _ & Hmethod & Hparams & Hget & ->)]]];
    simpl.
  - intros []%elem_of_nil.
  - intros ->%list_elem_of_singleton. exists (method_not_found id name).
    split; [done|]. right. split; [done|].
    by exists (-32601)%Z, (str "Method not found: " ++ name).
  - intros []%elem_of_nil.
  - assert (handled this msg = Some (call this fn (or_empty params))) as Hcall.
    { unfold handled. rewrite Hmethod, Hparams. simpl. by rewrite Hget. }
    rewrite Hcall in *.
    destruct (call this fn _) as [result|err|]; simpl.
    + intros ->%list_elem_of_singleton. exists (success id result).
      split; [done|]. left. split; [|done].
      exists result. split; [done|]. by destruct result.
    + intros ->%list_elem_of_singleton. exists (internal_error id).
      split; [done|]. right. split; [done|].
      by exists (-32603)%Z, (str "Internal error").
    + intros []%elem_of_nil.
Qed.

(** What [createServer] leaves behind, whatever the pool handlers are: the
    handler of [initialize], the identity of the server, and one message
    written, the announcement. *)
Lemma createServer_configures a b c d :
  let r := createServer a b c d in
  Map_get (handlers (final r)) (text "initialize") = Some initialize ∧
  Map_get (handlers (final r)) (text "initialized") = Some initialized ∧
  name (final r) = text "mysql-mcp-server" ∧
  version (final r) = text "1.0.1" ∧
  capabilities (final r) = server_capabilities ∧
  transport (final r) = with_onRequest (Some Dispatch) new_JsonRpcStdio ∧
  trace r =
    [Stdout (JSON_stringify
       (object [("jsonrpc", text "2.0"); ("method", text "mcp/announce");
                ("params", object [("name", text "mysql-mcp-server");
                                   ("version", text "1.0.1");
                                   ("capabilities", server_capabilities)])])
       ++ [LF])].
Proof. split_and!; vm_compute; reflexivity. Qed.


(** C2.  When the handler of a request fails, whatever it raised, the
    failure is logged with [console.error] and exactly one message is
    written: the error -32603 with the id of the request.  That message is
    built from the id alone: two failures with different errors, on
    requests with the same id, write the same text. *)
Theorem handler_failure_answered this msg id method params fn err :
  prop msg (str "id") = Some id →
  prop msg (str "method") = Some method →
  prop msg (str "params") = Some params →
  Map_get (handlers this) method = Some fn →
  call this fn (or_empty params) = Rejected err →
  let r := _onRequest msg this in
  let reply := internal_error id in
  r = Run this
          [CallHandler method (or_empty params);
           ConsoleError [text "[ERROR] handler threw"; err];
           Stdout (JSON_stringify reply ++ [LF])]
          (Returned tt) ∧
  prop reply (str "id") = Some id ∧
  (prop reply (str "error") ≫= λ e, prop e (str "code")) = Some (VNum (-32603)) ∧
  (∀ this' msg' method' params' fn' err',
     prop msg' (str "id") = Some id →
     prop msg' (str "method") = Some method' →
     prop msg' (str "params") = Some params' →
     Map_get (handlers this') method' = Some fn' →
     call this' fn' (or_empty params') = Rejected err' →
     written (trace (_onRequest msg' this')) = written (trace r)).
Proof.
  intros Hid Hmethod Hparams Hget Hcall r reply. subst r reply.
  rewrite (_onRequest_known this msg id method params fn) by done.
  rewrite Hcall. split_and!; [done..|].
  intros this' msg' method' params' fn' err' Hid' Hmethod' Hparams' Hget' Hcall'.
  rewrite (_onRequest_known this' msg' id method' params' fn') by done.
  by rewrite Hcall'.
Qed.

(** C3, as the code has it.  A message with a method and no id is handled
    like any request: its handler is called, and when the handler has
    settled exactly one message is written, whose [id] is [undefined]: the
    result if the handler succeeded, the error -32603, after the failure
    was logged, if it failed. *)
Theorem notification_answered this msg method params fn :
  prop msg (str "id") = Some VUndefined →
  prop msg (str "method") = Some method →
  prop msg (str "params") = Some params →
  Map_get (handlers this) method = Some fn →
  let r := _onRequest msg this in
  handler_calls (trace r) = [(method, or_empty params)] ∧
  match call this fn (or_empty params) with
  | Fulfilled result =>
      r = Run this
            [CallHandler method (or_empty params);
             Stdout (JSON_stringify (success VUndefined result) ++ [LF])]
            (Returned tt)
  | Rejected err =>
      r = Run this
            [CallHandler method (or_empty params);
             ConsoleError [text "[ERROR] handler threw"; err];
             Stdout (JSON_stringify (internal_error VUndefined) ++ [LF])]
            (Returned tt)
  | NeverSettles =>
      r = Run this [CallHandler method (or_empty params)] (Returned tt)
  end.
Proof.
  intros Hid Hmethod Hparams Hget r. subst r.
  rewrite (_onRequest_known this msg VUndefined method params fn) by done.
  by destruct (call this fn _).
Qed.

(** C6.  A request named [initialize] is answered by one message with the
    id of the request, whose result holds the protocol version, the name
    and the version of the server, its capabilities, and an empty list of
    resource templates. *)
Theorem initialize_answered this msg id params :
  prop msg (str "id") = Some id →
  prop msg (str "method") = Some (text "initialize") →
  prop msg (str "params") = Some params →
  Map_get (handlers this) (text "initialize") = Some initialize →
  _onRequest msg this =
  Run this
      [CallHandler (text "initialize") (or_empty params);
       Stdout (JSON_stringify
         (object
            [("jsonrpc", text "2.0");
             ("id", id);
             ("result", object
                [("protocolVersion", text "2024-11-05");
                 ("serverInfo", object [("name", name this);
                                        ("version", version this)]);
                 ("capabilities", capabilities this);
                 ("resourceTemplates", VArr [])])]) ++ [LF])]
      (Returned tt).
Proof.
  intros Hid Hmethod Hparams Hget.
  by rewrite (_onRequest_known this msg id (text "initialize") params initialize).
Qed.

(** C9, as the code has it.  Unless the handler fulfilled with [undefined],
    every message that [_onRequest] writes is the serialization of an
    envelope in which [JSON.stringify] finds either the member [result],
    whose value is the value the handler returned, and no member [error], or
    the member [error], an object made of a code and a message, and no
    member [result]. *)
Theorem reply_has_result_xor_error this msg out :
  handled this msg ≠ Some (Fulfilled VUndefined) →
  out ∈ written (trace (_onRequest msg this)) →
  ∃ reply,
    out = JSON_stringify reply ++ [LF] ∧
    ((∃ result, handled this msg = Some (Fulfilled result) ∧
                member "result" reply = Some result) ∧
     member "error" reply = None
     ∨
     member "result" reply = None ∧
     ∃ code message,
       member "error" reply
       = Some (object [("code", VNum code); ("message", VStr message)])).
Proof. apply reply_members. Qed.
End dispatcher_facts.

(** ** The code at work *)

Section examples.
#[local] Existing Instance Demo.runtime.

(** A request for an unknown method, received in two chunks cut in the
    middle of the line, then a line that is not JSON. *)
Example two_chunks :
  on_data [take 9 (Demo.line_of Demo.nope_request);
           drop 9 (Demo.line_of Demo.nope_request) ++ str "oops" ++ [13; LF]
             ++ str "{"]
          (transport Demo.server)
  = Run (with_buffer (str "{") (transport Demo.server))
        [Classify Demo.nope_request;
         Call Dispatch Demo.nope_request;
         ConsoleError [text "[ERROR] Invalid JSON from client:"; text "oops"]]
        (Returned tt).
Proof. vm_compute. reflexivity. Qed.

(** The line [null] is JSON; reading [msg.method] of it throws, the loop is
    left and the line after it is never looked at. *)
Example null_line :
  _onData (str "null" ++ [LF] ++ Demo.line_of Demo.nope_request)
          (transport Demo.server)
  = Run (with_buffer (Demo.line_of Demo.nope_request) (transport Demo.server))
        [Classify VNull] TypeError.
Proof. vm_compute. reflexivity. Qed.


Lemma handler_failure_answered_witness :
  prop Demo.fail_request (str "id") = Some (VNum 3) ∧
  prop Demo.fail_request (str "method") = Some (text "fail") ∧
  prop Demo.fail_request (str "params") = Some VUndefined ∧
  Map_get (handlers Demo.failing_server) (text "fail")
    = Some (External (λ _, Rejected (text "boom"))) ∧
  call Demo.failing_server (External (λ _, Rejected (text "boom")))
       (or_empty VUndefined) = Rejected (text "boom") ∧
  _onRequest Demo.fail_request Demo.failing_server
  = Run Demo.failing_server
        [CallHandler (text "fail") (object []);
         ConsoleError [text "[ERROR] handler threw"; text "boom"];
         Stdout (JSON_stringify (internal_error (VNum 3)) ++ [LF])]
        (Returned tt).
Proof.
  split_and!; [reflexivity..|].
  apply (handler_failure_answered Demo.failing_server Demo.fail_request
           (VNum 3) (text "fail") VUndefined
           (External (λ _, Rejected (text "boom"))) (text "boom"));
    reflexivity.
Defined.

(** The claim that a message without an id is never answered fails on the
    server of [createServer]: the notification [initialized] is answered
    with a result. *)
Lemma notification_answered_counterexample :
  prop Demo.initialized_notification (str "id") = Some VUndefined ∧
  Map_get (handlers Demo.server) (text "initialized") = Some initialized ∧
  written (trace (_onRequest Demo.initialized_notification Demo.server))
  = [Demo.bare_result_line].
Proof. split_and!; vm_compute; reflexivity. Qed.

Lemma notification_answered_witness :
  prop Demo.initialized_notification (str "id") = Some VUndefined ∧
  prop Demo.initialized_notification (str "method") = Some (text "initialized") ∧
  prop Demo.initialized_notification (str "params") = Some VUndefined ∧
  Map_get (handlers Demo.server) (text "initialized") = Some initialized ∧
  _onRequest Demo.initialized_notification Demo.server
  = Run Demo.server
        [CallHandler (text "initialized") (object []);
         Stdout (JSON_stringify (success VUndefined (object [])) ++ [LF])]
        (Returned tt).
Proof.
  split_and!; [reflexivity|reflexivity|reflexivity|vm_compute; reflexivity|].
  apply (notification_answered Demo.server Demo.initialized_notification
           (text "initialized") VUndefined initialized);
    [reflexivity|reflexivity|reflexivity|vm_compute; reflexivity].
Defined.

Lemma framing_independent_of_chunking_witness :
  trace (on_data [take 9 (Demo.line_of Demo.nope_request);
                  drop 9 (Demo.line_of Demo.nope_request)]
                 (transport Demo.server))
  = trace (_onData (take 9 (Demo.line_of Demo.nope_request) ++
                    concat [drop 9 (Demo.line_of Demo.nope_request)])
                   (transport Demo.server)).
Proof.
  apply (framing_independent_of_chunking
           (take 9 (Demo.line_of Demo.nope_request))
           [drop 9 (Demo.line_of Demo.nope_request)]
           (transport Demo.server)).
Defined.

(** The claim that a reply whose id has an entry in [pending] completes it
    fails for the id [0]: the entry stays and its callback is not called. *)
Lemma reply_completes_pending_once_counterexample :
  prop Demo.reply_0 (str "method") = Some VUndefined ∧
  prop Demo.reply_0 (str "id") = Some (VNum 0) ∧
  Map_get (pending Demo.waiting) (VNum 0) = Some (Resolver 0) ∧
  _handleMessage Demo.reply_0 Demo.waiting = Run Demo.waiting [] (Returned tt).
Proof. split_and!; vm_compute; reflexivity. Qed.

Lemma reply_completes_pending_once_witness :
  prop Demo.reply_7 (str "method") = Some VUndefined ∧
  prop Demo.reply_7 (str "id") = Some (VNum 7) ∧
  truthy (VNum 7) = true ∧
  _handleMessage Demo.reply_7 Demo.waiting
  = Run (with_pending (Map_delete (pending Demo.waiting) (VNum 7)) Demo.waiting)
        [Call (Resolver 1) Demo.reply_7] (Returned tt).
Proof.
  split_and!; [reflexivity..|].
  apply (reply_completes_pending_once Demo.waiting Demo.reply_7 (VNum 7));
    reflexivity.
Defined.

Lemma initialize_answered_witness :
  prop Demo.initialize_request (str "id") = Some (VNum 1) ∧
  prop Demo.initialize_request (str "method") = Some (text "initialize") ∧
  prop Demo.initialize_request (str "params") = Some (object []) ∧
  Map_get (handlers Demo.server) (text "initialize") = Some initialize ∧
  written (trace (_onRequest Demo.initialize_request Demo.server))
  = [JSON_stringify
       (object
          [("jsonrpc", text "2.0");
           ("id", VNum 1);
           ("result", object
              [("protocolVersion", text "2024-11-05");
               ("serverInfo", object [("name", text "mysql-mcp-server");
                                      ("version", text "1.0.1")]);
               ("capabilities", server_capabilities);
               ("resourceTemplates", VArr [])])]) ++ [LF]].
Proof.
  split_and!; [reflexivity|reflexivity|reflexivity|vm_compute; reflexivity|].
  rewrite (initialize_answered Demo.server Demo.initialize_request (VNum 1)
             (object []));
    [reflexivity|reflexivity|reflexivity|reflexivity|vm_compute; reflexivity].
Defined.

Lemma invalid_line_logged_and_skipped_witness :
  buffer (transport Demo.server) ++ (str " oops" ++ [13; LF] ++ str "{")
    = str " oops" ++ [13] ++ LF :: str "{" ∧
  (LF ∉ str " oops" ++ [13]) ∧
  trim (str " oops" ++ [13]) ≠ [] ∧
  JSON_parse (trim (str " oops" ++ [13])) = None ∧
  _onData (str " oops" ++ [13; LF] ++ str "{") (transport Demo.server)
  = after [ConsoleError [text "[ERROR] Invalid JSON from client:";
                         VStr (trim (str " oops" ++ [13]))]]
          (_onData (str "{") (with_buffer [] (transport Demo.server))).
Proof.
  assert (LF ∉ str " oops" ++ [13]) as Hline.
  { apply (bool_decide_unpack _). vm_compute. reflexivity. }
  split_and!; [reflexivity|exact Hline|discriminate|reflexivity|].
  apply (invalid_line_logged_and_skipped (transport Demo.server)
           (str " oops" ++ [13; LF] ++ str "{") (str " oops" ++ [13]) (str "{"));
    [reflexivity|exact Hline|discriminate|reflexivity].
Defined.

Lemma blank_line_skipped_witness :
  buffer (transport Demo.server) ++ (str "  " ++ [13; LF] ++ str "{")
    = str "  " ++ [13] ++ LF :: str "{" ∧
  (LF ∉ str "  " ++ [13]) ∧
  trim (str "  " ++ [13]) = [] ∧
  _onData (str "  " ++ [13; LF] ++ str "{") (transport Demo.server)
  = _onData (str "{") (with_buffer [] (transport Demo.server)).
Proof.
  assert (LF ∉ str "  " ++ [13]) as Hline.
  { apply (bool_decide_unpack _). vm_compute. reflexivity. }
  split_and!; [reflexivity|exact Hline|reflexivity|].
  apply (blank_line_skipped (transport Demo.server)
           (str "  " ++ [13; LF] ++ str "{") (str "  " ++ [13]) (str "{"));
    [reflexivity|exact Hline|reflexivity].
Defined.

Lemma reply_has_result_xor_error_witness :
  handled Demo.server Demo.initialize_request ≠ Some (Fulfilled VUndefined) ∧
  JSON_stringify
    (success (VNum 1)
       (object [("protocolVersion", text "2024-11-05");
                ("serverInfo", object [("name", text "mysql-mcp-server");
                                       ("version", text "1.0.1")]);
                ("capabilities", server_capabilities);
                ("resourceTemplates", VArr [])])) ++ [LF]
    ∈ written (trace (_onRequest Demo.initialize_request Demo.server)) ∧
  ∃ reply,
    JSON_stringify
      (success (VNum 1)
         (object [("protocolVersion", text "2024-11-05");
                  ("serverInfo", object [("name", text "mysql-mcp-server");
                                         ("version", text "1.0.1")]);
                  ("capabilities", server_capabilities);
                  ("resourceTemplates", VArr [])])) ++ [LF]
      = JSON_stringify reply ++ [LF] ∧
    ((∃ result,
        handled Demo.server Demo.initialize_request = Some (Fulfilled result) ∧
        member "result" reply = Some result) ∧
     member "error" reply = None
     ∨
     member "result" reply = None ∧
     ∃ code message,
       member "error" reply
       = Some (object [("code", VNum code); ("message", VStr message)])).
Proof.
  assert (handled Demo.server Demo.initialize_request
          ≠ Some (Fulfilled VUndefined)) as Hdefined.
  { vm_compute. discriminate. }
  assert (JSON_stringify
            (success (VNum 1)
               (object [("protocolVersion", text "2024-11-05");
                        ("serverInfo", object [("name", text "mysql-mcp-server");
                                               ("version", text "1.0.1")]);
                        ("capabilities", server_capabilities);
                        ("resourceTemplates", VArr [])])) ++ [LF]
            ∈ written (trace (_onRequest Demo.initialize_request Demo.server)))
    as Hin.
  { apply (bool_decide_unpack _). vm_compute. reflexivity. }
  split_and!; [exact Hdefined|exact Hin|].
  exact (reply_has_result_xor_error Demo.server Demo.initialize_request _
           Hdefined Hin).
Defined.


(** A handler that returns nothing: the reply to the request [9] is the line
    that holds the members [jsonrpc] and [id] and no other, neither [result]
    nor [error]. *)
Lemma reply_has_result_xor_error_counterexample :
  written (trace (_onRequest Demo.quiet_request Demo.quiet_server))
  = [JSON_stringify (success (VNum 9) VUndefined) ++ [LF]] ∧
  JSON_stringify (success (VNum 9) VUndefined)
  = str "{" ++ Demo.quote (str "jsonrpc") ++ str ":" ++ Demo.quote (str "2.0")
    ++ str "," ++ Demo.quote (str "id") ++ str ":9}" ∧
  member "result" (success (VNum 9) VUndefined) = None ∧
  member "error" (success (VNum 9) VUndefined) = None.
Proof. split_and!; vm_compute; reflexivity. Qed.

Lemma buffer_is_unterminated_tail_witness :
  buffer new_JsonRpcStdio = [] ∧
  outcome (on_data [str "oo"; str "ps" ++ [LF] ++ str "{"; str "}"]
                   new_JsonRpcStdio) = Returned tt ∧
  follows_last_newline
    (concat [str "oo"; str "ps" ++ [LF] ++ str "{"; str "}"])
    (buffer (final (on_data [str "oo"; str "ps" ++ [LF] ++ str "{"; str "}"]
                            new_JsonRpcStdio))).
Proof.
  split_and!; [reflexivity|vm_compute; reflexivity|].
  apply (buffer_is_unterminated_tail
           [str "oo"; str "ps" ++ [LF] ++ str "{"; str "}"] new_JsonRpcStdio);
    [reflexivity|vm_compute; reflexivity].
Defined.
End examples.

(** * More of the code *)

(** ** What holds of every run of the transport *)

(** A relation between the fields before, the effects, and the fields after,
    that every handled line keeps and that does not look at the buffer, is
    kept by the loop of [_onData], by [_onData] and by any number of
    chunks. *)
Section kept_by_transport.
Context `{Runtime}.
Variable R : JsonRpcStdio → list effect → JsonRpcStdio → Prop.
Hypothesis R_nil : ∀ s, R s [] s.
Hypothesis R_app :
  ∀ s tr1 s1 tr2 s2, R s tr1 s1 → R s1 tr2 s2 → R s (tr1 ++ tr2) s2.
Hypothesis R_buffer : ∀ s tr s' b, R (with_buffer b s) tr s' → R s tr s'.
Hypothesis R_line : ∀ line s, R s (trace (on_line line s)) (final (on_line line s)).

Lemma bind_kept {A B} (m : M JsonRpcStdio A) (k : A → M JsonRpcStdio B) s :
  R s (trace (m s)) (final (m s)) →
  (∀ a s', R s' (trace (k a s')) (final (k a s'))) →
  R s (trace ((m ≫= k) s)) (final ((m ≫= k) s)).
Proof.
  intros Hm Hk. rewrite bind_eq. destruct (m s) as [s1 tr1 [a|]]; simpl in *.
  - eapply R_app; [exact Hm|apply Hk].
  - exact Hm.
Qed.

Lemma drain_kept s : R s (trace (drain s)) (final (drain s)).
Proof.
  remember (length (buffer s)) as n eqn:Hn.
  revert s Hn. induction (lt_wf n) as [n _ IH]. intros s ->.
  destruct (indexOf LF (buffer s)) as [idx|] eqn:Hidx.
  - apply indexOf_Some in Hidx as (line & rest & Hbuf & Hline & _).
    rewrite (drain_line s line rest), bind_eq by done.
    pose proof (R_line (trim line) (with_buffer rest s)) as Hline'.
    pose proof (on_line_keeps_buffer (trim line) (with_buffer rest s)) as Hkeep.
    destruct (on_line (trim line) (with_buffer rest s)) as [s1 tr1 [[]|]];
      simpl in *.
    + eapply R_app; [exact (R_buffer _ _ _ _ Hline')|].
      apply (IH (length rest)); [|by rewrite Hkeep].
      rewrite Hbuf, length_app. simpl. lia.
    + exact (R_buffer _ _ _ _ Hline').
  - apply indexOf_None in Hidx. rewrite drain_no_line by done. apply R_nil.
Qed.

Lemma _onData_kept chunk s :
  R s (trace (_onData chunk s)) (final (_onData chunk s)).
Proof. rewrite _onData_eq. eapply R_buffer, drain_kept. Qed.

Lemma on_data_kept chunks s :
  R s (trace (on_data chunks s)) (final (on_data chunks s)).
Proof.
  revert s. induction chunks as [|chunk later IH]; intros s; [apply R_nil|].
  simpl. apply bind_kept; [apply _onData_kept|]. intros _ s'. apply IH.
Qed.
End kept_by_transport.

Section accounts.
Context `{Runtime}.
Implicit Types (this s : JsonRpcStdio) (tr : list effect).

Lemma accounted_nil s : accounted s [] s.
Proof.
  split_and!; try done. intros f msg []%elem_of_nil.
Qed.

Lemma accounted_app s tr1 s1 tr2 s2 :
  accounted s tr1 s1 → accounted s1 tr2 s2 → accounted s (tr1 ++ tr2) s2.
Proof.
  intros (Hl1 & Hp1 & Hc1 & Hj1) (Hl2 & Hp2 & Hc2 & Hj2).
  unfold accounted, completions in *.
  split_and!.
  - congruence.
  - by etrans.
  - rewrite omap_app, length_app. lia.
  - intros f msg [Hin|Hin]%elem_of_app; [by apply Hj1|].
    specialize (Hj2 f msg Hin). destruct (is_request msg); [congruence|].
    destruct Hj2 as (id & Hid & Htruthy & Hget). exists id. split_and!; [done..|].
    unfold Map_get in *. destruct (to_key id) as [k|]; simpl in *; [|done].
    by eapply lookup_weaken.
Qed.

Lemma accounted_buffer s tr s' b : accounted (with_buffer b s) tr s' → accounted s tr s'.
Proof. done. Qed.

Lemma accounted_call_listener s f msg :
  onRequest s = Some f → is_request msg = true → accounted s [Call f msg] s.
Proof.
  intros Hf Hrequest. split_and!; try done.
  - unfold completions. simpl. by rewrite Hrequest.
  - intros f' msg' Hin%list_elem_of_singleton. injection Hin as -> ->.
    by rewrite Hrequest.
Qed.

Lemma accounted_call_resolver s f msg id :
  is_request msg = false →
  prop msg (str "id") = Some id → truthy id = true →
  Map_get (pending s) id = Some f →
  accounted s [Call f msg] (with_pending (Map_delete (pending s) id) s).
Proof.
  intros Hrequest Hid Htruthy Hget.
  assert (∃ k, to_key id = Some k ∧ pending s !! k = Some f) as (k & Hk & Hlookup).
  { unfold Map_get in Hget. destruct (to_key id) as [k|]; [|done]. by exists k. }
  unfold Map_delete. rewrite Hk. split_and!; try done.
  - apply delete_subseteq.
  - unfold completions. simpl. rewrite Hrequest. simpl.
    rewrite map_size_delete, Hlookup.
    destruct (size (pending s)) eqn:Hsize; [|done].
    apply map_size_empty_inv in Hsize. rewrite Hsize in Hlookup.
    by rewrite lookup_empty in Hlookup.
  - intros f' msg' Hin%list_elem_of_singleton. injection Hin as -> ->.
    rewrite Hrequest. eauto.
Qed.

Lemma accounted_handleMessage msg s :
  accounted s (trace (_handleMessage msg s)) (final (_handleMessage msg s)).
Proof.
  unfold _handleMessage, read.
  destruct (prop msg (str "method")) as [method|] eqn:Hmethod;
    [|apply accounted_nil].
  run_code. destruct (truthy method) eqn:Hrequest.
  - run_code. destruct (onRequest s) as [f|] eqn:Hf; simpl; [|apply accounted_nil].
    apply accounted_call_listener; [done|].
    unfold is_request. by rewrite Hmethod.
  - destruct (prop msg (str "id")) as [id|] eqn:Hid; [|apply accounted_nil].
    run_code. destruct (truthy id) eqn:Htruthy; [|apply accounted_nil].
    run_code. destruct (Map_get (pending s) id) as [f|] eqn:Hget; simpl;
      [|apply accounted_nil].
    apply (accounted_call_resolver s f msg id); [|done..].
    unfold is_request. by rewrite Hmethod.
Qed.

Lemma accounted_line line s :
  accounted s (trace (on_line line s)) (final (on_line line s)).
Proof.
  unfold on_line. case_bool_decide; [apply accounted_nil|].
  destruct (JSON_parse line) as [obj|].
  - rewrite bind_eq. simpl.
    pose proof (accounted_handleMessage obj s) as Hobj.
    destruct (_handleMessage obj s) as [s' tr [[]|]]; simpl in *.
    + apply (accounted_app s [Classify obj] s); [|done].
      split_and!; try done. intros f msg Hin%list_elem_of_singleton. done.
    + apply (accounted_app s [Classify obj] s); [|done].
      split_and!; try done. intros f msg Hin%list_elem_of_singleton. done.
  - simpl. split_and!; try done. intros f msg Hin%list_elem_of_singleton. done.
Qed.

Lemma on_data_accounted chunks s :
  accounted s (trace (on_data chunks s)) (final (on_data chunks s)).
Proof.
  apply on_data_kept.
  - apply accounted_nil.
  - apply accounted_app.
  - apply accounted_buffer.
  - apply accounted_line.
Qed.

(** X2.  Whatever is received, the listener stays the same, no entry is
    added to [pending], and the number of calls of completion callbacks and
    the number of entries left add up to the number of entries before. *)
Theorem completions_consume_pending chunks this :
  let r := on_data chunks this in
  onRequest (final r) = onRequest this ∧
  pending (final r) ⊆ pending this ∧
  (length (completions (trace r)) + size (pending (final r))
   = size (pending this))%nat.
Proof.
  destruct (on_data_accounted chunks this) as (Hl & Hp & Hc & _).
  by split_and!.
Qed.

(** X3.  Whatever is received, a callback is called only for cause: with a
    message whose method is truthy it is the listener that is called; with
    any other message it is the callback that [pending] held, before the
    input came, for the truthy id of the message. *)
Theorem callbacks_called_for_cause chunks this f msg :
  Call f msg ∈ trace (on_data chunks this) →
  if is_request msg then onRequest this = Some f
  else ∃ id, prop msg (str "id") = Some id ∧ truthy id = true ∧
             Map_get (pending this) id = Some f.
Proof.
  destruct (on_data_accounted chunks this) as (_ & _ & _ & Hj).
  apply Hj.
Qed.
End accounts.

(** ** Lines *)

Section more_lines.
Context `{Runtime}.
Implicit Types (this s : JsonRpcStdio) (line rest chunk tail : jsstring).

Lemma with_buffer_same s : with_buffer (buffer s) s = s.
Proof. by destruct s. Qed.

Lemma _onData_line chunk this line rest :
  buffer this ++ chunk = line ++ LF :: rest → LF ∉ line →
  _onData chunk this = (on_line (trim line) ;; drain) (with_buffer rest this).
Proof.
  intros Hbuf Hline. rewrite _onData_eq.
  by rewrite (drain_line _ line rest).
Qed.

Lemma _onData_rest rest this :
  _onData rest (with_buffer [] this) = drain (with_buffer rest this).
Proof. by rewrite _onData_eq. Qed.

(** X4.  A line that is JSON for [null] ends the process: the message is
    handed to [_handleMessage], reading [msg.method] throws, nothing
    catches the TypeError, the lines after it stay in the buffer and no
    chunk that comes later is looked at. *)
Theorem null_line_ends_process this chunk line rest later :
  buffer this ++ chunk = line ++ LF :: rest →
  LF ∉ line →
  trim line ≠ [] →
  JSON_parse (trim line) = Some VNull →
  _onData chunk this = Run (with_buffer rest this) [Classify VNull] TypeError ∧
  on_data (chunk :: later) this
  = Run (with_buffer rest this) [Classify VNull] TypeError.
Proof.
  intros Hbuf Hline Hne Hparse.
  assert (_onData chunk this
          = Run (with_buffer rest this) [Classify VNull] TypeError) as Hrun.
  { rewrite (_onData_line chunk this line rest), bind_eq by done.
    unfold on_line. by rewrite bool_decide_false, Hparse by done. }
  split; [done|]. simpl. by rewrite bind_eq, Hrun.
Qed.

(** X7.  A line that is JSON for a value other than [null] with neither a
    truthy method nor a truthy id (a number, a string, an array, an object
    without these members, a reply with id [0]) is classified and dropped:
    nothing else is done and no field but the buffer changes. *)
Theorem inert_line_dropped this chunk line rest msg method id :
  buffer this ++ chunk = line ++ LF :: rest →
  LF ∉ line →
  trim line ≠ [] →
  JSON_parse (trim line) = Some msg →
  prop msg (str "method") = Some method → truthy method = false →
  prop msg (str "id") = Some id → truthy id = false →
  _onData chunk this = after [Classify msg] (_onData rest (with_buffer [] this)).
Proof.
  intros Hbuf Hline Hne Hparse Hmethod Hfalsy Hid Hfalsy'.
  rewrite (_onData_line chunk this line rest), _onData_rest, bind_eq by done.
  unfold on_line. rewrite bool_decide_false, Hparse by done.
  unfold _handleMessage, read. rewrite Hmethod, Hid. run_code.
  rewrite Hfalsy. run_code. rewrite Hfalsy'. simpl.
  by destruct (drain _).
Qed.

(** X8.  A line that is JSON for a message with a truthy method is handed
    to the listener, once, and to nothing else: [pending] is not looked at,
    even when the message has the id of a pending entry.  Without a listener
    the request is dropped. *)
Theorem request_line_dispatched this chunk line rest msg :
  buffer this ++ chunk = line ++ LF :: rest →
  LF ∉ line →
  trim line ≠ [] →
  JSON_parse (trim line) = Some msg →
  is_request msg = true →
  _onData chunk this
  = after (Classify msg ::
           match onRequest this with
           | Some f => [Call f msg]
           | None => []
           end)
          (_onData rest (with_buffer [] this)).
Proof.
  intros Hbuf Hline Hne Hparse Hrequest.
  rewrite (_onData_line chunk this line rest), _onData_rest, bind_eq by done.
  unfold on_line. rewrite bool_decide_false, Hparse by done.
  unfold is_request in Hrequest.
  destruct (prop msg (str "method")) as [method|] eqn:Hmethod; [|done].
  unfold _handleMessage, read. rewrite Hmethod. run_code. rewrite Hrequest.
  run_code. destruct (onRequest this); simpl; by destruct (drain _).
Qed.
End more_lines.

Section trimming.
Implicit Types (s w line : jsstring).

Lemma trim_start_blank w s :
  Forall (λ c, is_white_space c = true) w → trim_start (w ++ s) = trim_start s.
Proof.
  induction 1 as [|c w Hc _ IH]; [done|]. simpl. by rewrite Hc.
Qed.

Lemma trim_end_blank w s :
  Forall (λ c, is_white_space c = true) w → trim_end (s ++ w) = trim_end s.
Proof.
  intros Hw. unfold trim_end. rewrite reverse_app.
  rewrite trim_start_blank; [done|]. by apply Forall_reverse.
Qed.

Lemma trim_start_app s w :
  trim_start s ≠ [] → trim_start (s ++ w) = trim_start s ++ w.
Proof.
  induction s as [|c s IH]; [done|]. simpl.
  destruct (is_white_space c); [exact IH|done].
Qed.

Lemma trim_start_all_blank s :
  trim_start s = [] → Forall (λ c, is_white_space c = true) s.
Proof.
  induction s as [|c s IH]; [constructor|]. simpl.
  destruct (is_white_space c) eqn:Hc; [|done].
  intros Hs. constructor; [done|by apply IH].
Qed.

Lemma trim_blank w : Forall (λ c, is_white_space c = true) w → trim w = [].
Proof.
  intros Hw. unfold trim.
  rewrite <- (app_nil_r w), trim_start_blank by done. done.
Qed.

Lemma trim_wrapped w1 line w2 :
  Forall (λ c, is_white_space c = true) w1 →
  Forall (λ c, is_white_space c = true) w2 →
  trim (w1 ++ line ++ w2) = trim line.
Proof.
  intros Hw1 Hw2. unfold trim. rewrite trim_start_blank by done.
  destruct (decide (trim_start line = [])) as [Hblank|Hmore].
  - rewrite Hblank. apply trim_start_all_blank in Hblank.
    rewrite trim_start_blank, <- (app_nil_r w2), trim_start_blank by done.
    done.
  - rewrite trim_start_app by done. by apply trim_end_blank.
Qed.
End trimming.

Section more_lines_2.
Context `{Runtime}.
Implicit Types (this s : JsonRpcStdio) (line rest chunk tail : jsstring).

(** X5.  White space around a line does not matter: a line preceded and
    followed by white space (a carriage return before the newline, say) is
    handled exactly as the line alone is. *)
Theorem surrounding_white_space_ignored this chunk w1 line w2 rest :
  buffer this ++ chunk = (w1 ++ line ++ w2) ++ LF :: rest →
  LF ∉ w1 ++ line ++ w2 →
  Forall (λ c, is_white_space c = true) w1 →
  Forall (λ c, is_white_space c = true) w2 →
  _onData chunk this = _onData (line ++ LF :: rest) (with_buffer [] this).
Proof.
  intros Hbuf Hno Hw1 Hw2.
  assert (LF ∉ line) as Hline.
  { intros Hin. apply Hno. rewrite !elem_of_app. auto. }
  rewrite (_onData_line chunk this (w1 ++ line ++ w2) rest) by done.
  rewrite (_onData_line (line ++ LF :: rest) (with_buffer [] this) line rest)
    by done.
  by rewrite trim_wrapped.
Qed.

Lemma terminated_cons line lines :
  terminated (line :: lines) = line ++ LF :: terminated lines.
Proof. unfold terminated. simpl. by rewrite <- app_assoc. Qed.

Lemma lines_exist (s : jsstring) :
  ∃ lines tail,
    s = terminated lines ++ tail ∧ Forall (λ line, LF ∉ line) lines ∧ LF ∉ tail.
Proof.
  induction s as [|c s (lines & tail & -> & Hlines & Htail)].
  - exists [], []. split_and!; [done|constructor|apply not_elem_of_nil].
  - destruct (decide (c = LF)) as [->|Hc].
    + exists ([] :: lines), tail. split_and!; [done| |done].
      constructor; [apply not_elem_of_nil|done].
    + destruct lines as [|line lines].
      * exists [], (c :: tail). split_and!; [done|constructor|].
        apply not_elem_of_cons. split; [congruence|done].
      * exists ((c :: line) :: lines), tail.
        apply Forall_cons in Hlines as [Hline Hlines].
        split_and!; [by rewrite !terminated_cons| |done].
        constructor; [|done]. apply not_elem_of_cons. split; [congruence|done].
Qed.

Lemma drain_each_line lines tail s :
  buffer s = terminated lines ++ tail →
  Forall (λ line, LF ∉ line) lines → LF ∉ tail →
  same_behaviour (drain s) (each_line lines (with_buffer tail s)).
Proof.
  revert s. induction lines as [|line lines IH]; intros s Hbuf Hlines Htail.
  - simpl in *. rewrite drain_no_line by (by rewrite Hbuf).
    rewrite <- Hbuf, with_buffer_same. apply same_behaviour_refl.
  - apply Forall_cons in Hlines as [Hline Hlines].
    rewrite terminated_cons, <- app_assoc in Hbuf. simpl in Hbuf.
    rewrite (drain_line s line (terminated lines ++ tail)) by done.
    simpl. rewrite !bind_eq.
    rewrite (on_line_buffer _ (terminated lines ++ tail) s).
    rewrite (on_line_buffer _ tail s). simpl.
    destruct (on_line (trim line) s) as [t tr [[]|]]; simpl.
    + apply same_behaviour_after.
      apply (IH (with_buffer (terminated lines ++ tail) t)); done.
    + by repeat split.
Qed.

(** X6.  What is received is made of lines, each ended by a newline, and of
    a tail without newline; [_onData] handles these lines
    one after the other, each one once, in the order in which they came,
    stopping only if an exception escapes, and leaves the tail in the
    buffer. *)
Theorem lines_handled_in_order this chunk :
  ∃ lines tail,
    buffer this ++ chunk = terminated lines ++ tail ∧
    Forall (λ line, LF ∉ line) lines ∧
    (LF ∉ tail) ∧
    let r := _onData chunk this in
    let r' := each_line lines (with_buffer tail this) in
    trace r = trace r' ∧
    outcome r = outcome r' ∧
    (outcome r = Returned tt → final r = final r').
Proof.
  destruct (lines_exist (buffer this ++ chunk))
    as (lines & tail & Hbuf & Hlines & Htail).
  exists lines, tail. split_and!; [done..|].
  rewrite _onData_eq.
  destruct (drain_each_line lines tail (with_buffer (buffer this ++ chunk) this))
    as (Ht & Ho & Hf); [done..|].
  split_and!; [done..|]. intros Hret. apply Hf. by rewrite Hret.
Qed.
End more_lines_2.

(** ** More of the dispatcher *)

Section more_dispatcher.
Context `{Runtime}.
Implicit Types (this : MCPServer) (msg id method params : value).

(** X9.  When the handler of a request succeeds, exactly one message is
    written: the result envelope, with the id of the request and, as its
    result, the value the handler returned, whatever it is; nothing is
    logged. *)
Theorem handler_success_answered this msg id method params fn result :
  prop msg (str "id") = Some id →
  prop msg (str "method") = Some method →
  prop msg (str "params") = Some params →
  Map_get (handlers this) method = Some fn →
  call this fn (or_empty params) = Fulfilled result →
  let reply := success id result in
  _onRequest msg this
  = Run this
        [CallHandler method (or_empty params);
         Stdout (JSON_stringify reply ++ [LF])]
        (Returned tt) ∧
  prop reply (str "id") = Some id ∧
  prop reply (str "result") = Some result ∧
  has_own (str "error") reply = false.
Proof.
  intros Hid Hmethod Hparams Hget Hcall reply. subst reply.
  rewrite (_onRequest_known this msg id method params fn) by done.
  by rewrite Hcall.
Qed.

(** X10.  Whatever the message and whatever the handler does, [_onRequest]
    leaves every field of the server as it was, calls at most one handler
    and writes at most one message. *)
Theorem request_handled_once msg this :
  let r := _onRequest msg this in
  final r = this ∧
  (length (handler_calls (trace r)) ≤ 1)%nat ∧
  (length (written (trace r)) ≤ 1)%nat.
Proof.
  destruct (_onRequest_cases msg this)
    as [(_ & ->)|[(id & method & name & _ & _ & _ & _ & ->)
                 |[(id & method & _ & _ & _ & _ & ->)
                  |(id & method & params & fn & _ & _ & _ & _ & ->)]]];
    simpl; [split_and!; done || lia..|].
  destruct (call this fn _); simpl; split_and!; done || lia.
Qed.

(** X11.  Every message that [_onRequest] writes is the serialization of an
    envelope with the version tag [2.0] and with the [id] of the request it
    answers, [undefined] if the request has none. *)
Theorem reply_carries_request_id this msg out :
  out ∈ written (trace (_onRequest msg this)) →
  ∃ reply,
    out = JSON_stringify reply ++ [LF] ∧
    prop reply (str "jsonrpc") = Some (text "2.0") ∧
    prop reply (str "id") = prop msg (str "id").
Proof.
  destruct (_onRequest_cases msg this)
    as [(_ & ->)|[(id & method & name & Hid & _ & _ & _ & ->)
                 |[(id & method & _ & _ & _ & _ & ->)
                  |(id & method & params & fn & Hid & _ & _ & _ & ->)]]];
    simpl.
  - intros []%elem_of_nil.
  - intros ->%list_elem_of_singleton. exists (method_not_found id name).
    by rewrite Hid.
  - intros []%elem_of_nil.
  - destruct (call this fn _) as [result|err|]; simpl.
    + intros ->%list_elem_of_singleton. exists (success id result).
      by rewrite Hid.
    + intros ->%list_elem_of_singleton. exists (internal_error id).
      by rewrite Hid.
    + intros []%elem_of_nil.
Qed.

Lemma call_with_handlers h this fn params :
  call (with_handlers h this) fn params = call this fn params.
Proof. by destruct fn. Qed.

(** X12.  Registration takes effect and is local: after
    [setHandler(method, fn)] a request for [method] calls [fn], whatever was
    registered for it before, and a request for any other method is handled
    exactly as it was before. *)
Theorem setHandler_takes_effect this name' fn msg id method params :
  prop msg (str "id") = Some id →
  prop msg (str "method") = Some method →
  prop msg (str "params") = Some params →
  let registered := final (setHandler name' fn this) in
  (method = text name' →
   _onRequest msg registered
   = Run registered
         (CallHandler method (or_empty params) ::
          match call this fn (or_empty params) with
          | Fulfilled result =>
              [Stdout (JSON_stringify (success id result) ++ [LF])]
          | Rejected err =>
              [ConsoleError [text "[ERROR] handler threw"; err];
               Stdout (JSON_stringify (internal_error id) ++ [LF])]
          | NeverSettles => []
          end)
         (Returned tt)) ∧
  (method ≠ text name' →
   trace (_onRequest msg registered) = trace (_onRequest msg this)).
Proof.
  intros Hid Hmethod Hparams registered. subst registered. simpl. split.
  - intros ->.
    rewrite (_onRequest_known _ msg id (text name') params fn); [|done..|].
    + by rewrite call_with_handlers.
    + unfold Map_get. simpl. apply lookup_insert_eq.
  - intros Hother.
    assert (Map_get (<[KStr (str name') := fn]> (handlers this)) method
            = Map_get (handlers this) method) as Hget.
    { unfold Map_get. destruct (to_key method) as [k|] eqn:Hk; [|done]. simpl.
      apply lookup_insert_ne. intros <-. apply Hother.
      by destruct method; simplify_eq/=. }
    destruct (Map_get (handlers this) method) as [fn'|] eqn:Hget'.
    + rewrite (_onRequest_known _ msg id method params fn'); [|done..|].
      * rewrite (_onRequest_known this msg id method params fn') by done.
        by rewrite call_with_handlers.
      * simpl. by rewrite Hget.
    + assert (Map_has (handlers (with_handlers
                (<[KStr (str name') := fn]> (handlers this)) this)) method
              = false) as Hno by (apply Map_has_false; simpl; by rewrite Hget).
      apply Map_has_false in Hget'.
      destruct (ToString method) as [name|] eqn:Hname.
      * rewrite (_onRequest_unknown _ msg id method name) by done.
        by rewrite (_onRequest_unknown this msg id method name).
      * rewrite (_onRequest_unprintable _ msg id method) by done.
        by rewrite (_onRequest_unprintable this msg id method).
Qed.
End more_dispatcher.

Section more_dispatcher_2.
Context `{Runtime}.
Implicit Types (this : MCPServer) (msg id method params : value).

Lemma createServer_has a b c d method :
  Map_has (handlers (final (createServer a b c d))) method = true ↔
  method ∈ text <$> registered_names.
Proof.
  unfold Map_has. rewrite bool_decide_eq_true. unfold Map_get.
  change (handlers (final (createServer a b c d))) with
    (<[KStr (str "tools/call") := External d]>
     (<[KStr (str "tools/list") := tools_list]>
     (<[KStr (str "resources/templates/get") := External c]>
     (<[KStr (str "resources/templates/list") := resources_templates_list]>
     (<[KStr (str "resources/read") := External b]>
     (<[KStr (str "resources/list") := External a]>
     (<[KStr (str "initialized") := initialized]>
     (<[KStr (str "initialize") := initialize]> (∅ : gmap key handler))))))))).
  unfold registered_names.
  destruct (to_key method) as [k|] eqn:Hk; simpl.
  - rewrite !lookup_insert_is_Some, lookup_empty, !elem_of_cons, elem_of_nil.
    unfold text. split.
    + intros Hin.
      assert (∀ s, KStr s = k → method = VStr s) as Hs.
      { intros s <-. by destruct method; simplify_eq/=. }
      repeat (destruct Hin as [Heq|[_ Hin]];
              [rewrite (Hs _ Heq);
               repeat (first [left; reflexivity | right])|]).
      by apply is_Some_None in Hin.
    + intros Hin.
      repeat (destruct Hin as [->|Hin];
              [simpl in Hk; injection Hk as <-;
               repeat (first [left; reflexivity | right; split; [discriminate|]])|]).
      done.
  - split; [by intros [? ?]|].
    rewrite !elem_of_cons, elem_of_nil. unfold text.
    intros Hin. repeat (destruct Hin as [->|Hin]; [done|]). done.
Qed.

Lemma createServer_handlers a b c d method fn :
  Map_get (handlers (final (createServer a b c d))) method = Some fn →
  fn = initialize ∨ fn = initialized ∨ fn = resources_templates_list ∨
  fn = tools_list ∨ fn = External a ∨ fn = External b ∨ fn = External c ∨
  fn = External d.
Proof.
  unfold Map_get.
  change (handlers (final (createServer a b c d))) with
    (<[KStr (str "tools/call") := External d]>
     (<[KStr (str "tools/list") := tools_list]>
     (<[KStr (str "resources/templates/get") := External c]>
     (<[KStr (str "resources/templates/list") := resources_templates_list]>
     (<[KStr (str "resources/read") := External b]>
     (<[KStr (str "resources/list") := External a]>
     (<[KStr (str "initialized") := initialized]>
     (<[KStr (str "initialize") := initialize]> (∅ : gmap key handler))))))))).
  destruct (to_key method) as [k|]; simpl; [|done]. intros Hfn.
  repeat (apply lookup_insert_Some in Hfn as [[_ <-]|[_ Hfn]]; [by eauto 10|]).
  by rewrite lookup_empty in Hfn.
Qed.

(** X13.  The server of [createServer] knows eight methods and no other,
    whatever the pool handlers are: a request for any other method that
    prints, as every string does ([ping] or [notifications/initialized],
    say), is answered with the error -32601 and the text [Method not found: ]
    followed by the method; for a method that does not print, an object
    with a member [toString], nothing is written and the activation ends
    with a TypeError. *)
Theorem createServer_knows_eight_methods a b c d msg id method :
  let server := final (createServer a b c d) in
  prop msg (str "id") = Some id →
  prop msg (str "method") = Some method →
  (Map_has (handlers server) method = true ↔
   method ∈ text <$> registered_names) ∧
  (method ∉ text <$> registered_names →
   _onRequest msg server
   = match ToString method with
     | Some name =>
         Run server
             [Stdout (JSON_stringify (method_not_found id name) ++ [LF])]
             (Returned tt)
     | None => Run server [] TypeError
     end).
Proof.
  intros server Hid Hmethod. split; [apply createServer_has|].
  intros Hother.
  assert (Map_has (handlers server) method = false) as Hhas.
  { destruct (Map_has (handlers server) method) eqn:Hhas; [|done].
    by apply createServer_has in Hhas. }
  destruct (ToString method) as [name|] eqn:Hname.
  - by apply (_onRequest_unknown server msg id method).
  - by apply (_onRequest_unprintable server msg id method).
Qed.

(** X14.  No message that the transport hands to a callback is [null] or
    [undefined]: the first line of [_onRequest] never throws for it.
    [_onRequest], called with such a message on any server, ends with a
    TypeError in one case only, a method that has no handler and does not
    print; no TypeError escapes when the method is a string, a number, a
    boolean, [null] or [undefined]. *)
Theorem dispatched_message_throws_only_unprintable
    chunks (this : JsonRpcStdio) f msg server :
  Call f msg ∈ trace (on_data chunks this) →
  ∃ method,
    prop msg (str "method") = Some method ∧
    (outcome (_onRequest msg server) = TypeError ↔
     Map_has (handlers server) method = false ∧ ToString method = None) ∧
    (is_Some (to_key method) → outcome (_onRequest msg server) ≠ TypeError).
Proof.
  intros Hin.
  destruct (on_data_accounted chunks this) as (_ & _ & _ & Hj).
  specialize (Hj f msg Hin).
  assert (is_Some (prop msg (str "id"))) as [id Hid].
  { destruct (is_request msg) eqn:Hrequest.
    - unfold is_request in Hrequest.
      destruct (prop msg (str "method")) as [m|] eqn:Hm; [|done].
      by apply (prop_whole msg "method" m).
    - destruct Hj as (id & Hid & _). by exists id. }
  assert (∀ method,
            prop msg (str "method") = Some method →
            (outcome (_onRequest msg server) = TypeError ↔
             Map_has (handlers server) method = false ∧ ToString method = None))
    as Hthrows.
  { intros method Hmethod.
    destruct (_onRequest_cases msg server)
      as [(Hnone & _)|[(? & method' & name & _ & Hmethod' & _ & Hname & ->)
                      |[(? & method' & _ & Hmethod' & Hhas & Hname & ->)
                       |(? & method' & ? & fn & _ & Hmethod' & _ & Hget & ->)]]];
      [congruence|..]; simpl;
      assert (method' = method) as -> by congruence.
    - split; [done|]. intros [_ ?]. congruence.
    - done.
    - split; [done|]. intros [Hhas%Map_has_false _]. congruence. }
  destruct (prop_whole msg "id" id Hid (str "method")) as [method Hmethod].
  exists method. split_and!; [done|by apply Hthrows|].
  intros [name Hname]%ToString_primitive [_ ?]%(Hthrows method Hmethod).
  congruence.
Qed.
End more_dispatcher_2.

(** ** The pool handlers *)

Section library_facts.
Implicit Types (s t u : jsstring).

Lemma sanitize_words s : Forall (λ c, is_word c = true) (sanitize s).
Proof.
  unfold sanitize. apply Forall_forall. intros c Hc.
  by apply list_elem_of_filter in Hc as [Hc _].
Qed.

Lemma sanitize_id s : Forall (λ c, is_word c = true) s → sanitize s = s.
Proof.
  unfold sanitize. induction 1 as [|c s Hc _ IH]; [done|].
  by rewrite filter_cons_True, IH.
Qed.

Lemma remove_first_prefix pattern s : remove_first pattern (pattern ++ s) = s.
Proof.
  destruct (pattern ++ s) as [|c rest] eqn:Hs; simpl.
  - apply app_eq_nil in Hs as [-> ->]. done.
  - rewrite <- Hs, take_app_length, bool_decide_true by done.
    by rewrite drop_app_length.
Qed.

Lemma split_whole c s : c ∉ s → split c s = [s].
Proof.
  induction s as [|x s IH]; [done|]. intros [Hx Hs]%not_elem_of_cons. simpl.
  rewrite decide_False by done. by rewrite IH.
Qed.

Lemma split_first c s rest :
  c ∉ s → split c (s ++ c :: rest) = s :: split c rest.
Proof.
  induction s as [|x s IH]; simpl.
  - intros _. by rewrite decide_True.
  - intros [Hx Hs]%not_elem_of_cons. rewrite decide_False by done.
    by rewrite IH.
Qed.

Lemma split_head c s : ∃ first others, split c s = first :: others ∧ c ∉ first.
Proof.
  induction s as [|x s (first & others & IH & Hfirst)]; simpl.
  - exists [], []. split; [done|apply not_elem_of_nil].
  - case_decide as Hx.
    + exists [], (split c s). split; [done|apply not_elem_of_nil].
    + rewrite IH. exists (x :: first), others. split; [done|].
      apply not_elem_of_cons. split; [congruence|done].
Qed.
End library_facts.

Section table_facts.

Lemma table_of_canonical db table more :
  47 ∉ db →
  47 ∉ table →
  more = [] ∨ (∃ segments, more = 47 :: segments) →
  table_of (VStr (str "mysql://" ++ db ++ [47] ++ table ++ more))
  = Some (sanitize (if decide (table = []) then db else table)) ∧
  table_of (VStr (str "mysql://" ++ db)) = Some (sanitize db).
Proof.
  intros Hdb Htable Hmore. unfold table_of. split.
  - rewrite remove_first_prefix. simpl.
    rewrite (split_first 47 db (table ++ more)) by done.
    assert (∃ others, split 47 (table ++ more) = table :: others) as [others ->].
    { destruct Hmore as [->|[segments ->]].
      - exists []. rewrite app_nil_r. by apply split_whole.
      - eexists. by apply split_first. }
    unfold item, or_else. simpl.
    by destruct table as [|c table].
  - rewrite remove_first_prefix, split_whole by done. done.
Qed.

(** X15.  The table that a uri names.  For a uri made of [mysql://], a
    database name, a slash, a table name and possibly more segments, it is
    the table name stripped of every character that is not a letter, a digit
    or an underscore; when the table name is empty or when there is no
    slash at all, it is the database name, stripped likewise. *)
Theorem table_named_by_uri db table more :
  47 ∉ db →
  47 ∉ table →
  more = [] ∨ (∃ segments, more = 47 :: segments) →
  table_of (VStr (str "mysql://" ++ db ++ [47] ++ table ++ more))
  = Some (sanitize (if decide (table = []) then db else table)) ∧
  table_of (VStr (str "mysql://" ++ db)) = Some (sanitize db).
Proof. apply table_of_canonical. Qed.

(** Whatever the uri, when [table_of] gives a name it is made of letters,
    digits and underscores. *)
Lemma table_of_words uri table :
  table_of uri = Some table → Forall (λ c, is_word c = true) table.
Proof.
  unfold table_of. destruct uri; try done.
  destruct (or_else _ _); try done. intros [= <-]. apply sanitize_words.
Qed.

Lemma table_of_string uri table : table_of uri = Some table → ∃ u, uri = VStr u.
Proof. destruct uri; try done. eauto. Qed.
End table_facts.

(** Closes a goal about the queries of a handler that sends none. *)
Ltac no_query := by split; [simpl; lia|intros ?? []%elem_of_nil].

Section handler_facts.
Context `{Runtime} `{Library}.
Variable config : Config.
Variable pool : Pool.
Implicit Types (params uri : value).

(** X16.  [resources/read] sends at most one query, and the text of the
    query is [SELECT * FROM `t` LIMIT ? OFFSET ?] where [t] is made of
    letters, digits and underscores only: nothing of the uri can close the
    backquotes; the limit and the offset travel as values. *)
Theorem resources_read_query_safe params :
  (length (queries (resources_read pool params)) ≤ 1)%nat ∧
  ∀ sql values, (sql, values) ∈ queries (resources_read pool params) →
    ∃ table limit offset,
      sql = str "SELECT * FROM `" ++ table ++ str "` LIMIT ? OFFSET ?" ∧
      Forall (λ c, is_word c = true) table ∧
      values = Some [limit; offset].
Proof.
  unfold resources_read.
  destruct (prop params (str "uri")) as [uri|]; [|no_query].
  destruct (prop params (str "limit")) as [limit|]; [|no_query].
  destruct (prop params (str "offset")) as [offset|]; [|no_query].
  destruct (truthy uri); simpl; [|no_query].
  destruct (table_of uri) as [table|] eqn:Htable; [|no_query].
  destruct (Number_ _) as [limit'|]; [|no_query].
  destruct (Number_ _) as [offset'|]; [|no_query].
  split; [simpl; lia|]. intros sql values Hin%list_elem_of_singleton.
  injection Hin as -> ->. exists table, limit', offset'.
  split_and!; [done| |done]. by eapply table_of_words.
Qed.

(** X17.  The two handlers that take a uri refuse, before any query, a uri
    that is not a non-empty string.  [resources/read] throws its own error,
    [uri required], when the uri is missing or falsy, and ends with the
    TypeError of calling a method [replace] that the uri does not have when
    it is any other value (a number, an array, an object).
    [resources/templates/get] throws its own error,
    [uri and templateId required], when the uri or the template id is
    missing or falsy, and ends with that TypeError otherwise. *)
Theorem uri_must_be_a_string params uri templateId :
  prop params (str "uri") = Some uri →
  prop params (str "templateId") = Some templateId →
  (∀ u, uri = VStr u → u = []) →
  resources_read pool params
  = Exchange [] (Rejected (if truthy uri then TypeError_
                           else Error_ "uri required")) ∧
  resources_templates_get pool params
  = Exchange [] (Rejected (if truthy uri && truthy templateId then TypeError_
                           else Error_ "uri and templateId required")).
Proof.
  intros Huri Htid Hbad.
  assert (truthy uri = true → table_of uri = None) as Htable.
  { destruct uri as [| | | |u| |]; try done. simpl.
    rewrite (Hbad u eq_refl). by rewrite bool_decide_true. }
  unfold resources_read, resources_templates_get. rewrite Huri, Htid.
  destruct (prop_whole params "uri" uri Huri (str "limit")) as [limit ->].
  destruct (prop_whole params "uri" uri Huri (str "offset")) as [offset ->].
  destruct (truthy uri); simpl; [|done].
  rewrite Htable by done. split; [done|].
  by destruct (truthy templateId).
Qed.

(** X18.  [resources/templates/get] sends at most one query, whose text is
    [SELECT * FROM `t` LIMIT ?] with [t] made of letters, digits and
    underscores only, and whose one value is the number of rows: 100 for
    the template [top100], 10 for any other template id, known or not. *)
Theorem resources_templates_get_query params :
  (length (queries (resources_templates_get pool params)) ≤ 1)%nat ∧
  ∀ sql values, (sql, values) ∈ queries (resources_templates_get pool params) →
    ∃ table limit,
      sql = str "SELECT * FROM `" ++ table ++ str "` LIMIT ?" ∧
      Forall (λ c, is_word c = true) table ∧
      values = Some [VNum limit] ∧
      (prop params (str "templateId") = Some (text "top100") ∧ limit = 100%Z ∨
       prop params (str "templateId") ≠ Some (text "top100") ∧ limit = 10%Z).
Proof.
  unfold resources_templates_get.
  destruct (prop params (str "uri")) as [uri|]; [|no_query].
  destruct (prop params (str "templateId")) as [tid|]; [|no_query].
  destruct (negb (truthy uri) || negb (truthy tid)); [no_query|].
  destruct (table_of uri) as [table|] eqn:Htable; [|no_query].
  split; [simpl; lia|]. intros sql values Hin%list_elem_of_singleton.
  injection Hin as -> ->. eexists table, _.
  split_and!; [done|by eapply table_of_words|done|].
  destruct tid as [| | | |s| |]; try by right.
  case_bool_decide as Hs; [left; by subst s|right].
  split; [|done]. unfold text. congruence.
Qed.

(** X21.  [tools/call] sends a query only for the tool [query] and only a
    text that the test [/^\s*SELECT\s+/i] accepts; it sends it as it is,
    without values, and sends at most one. *)
Theorem tools_call_sends_select_only params :
  (length (queries (tools_call pool params)) ≤ 1)%nat ∧
  ∀ sql values, (sql, values) ∈ queries (tools_call pool params) →
    prop params (str "name") = Some (text "query") ∧
    starts_with_select sql = true ∧
    values = None.
Proof.
  unfold tools_call.
  destruct (prop params (str "name")) as [name'|]; [|no_query].
  destruct (prop params (str "arguments")) as [args|]; [|no_query].
  destruct name' as [| | | |s| |]; try no_query. simpl.
  case_bool_decide as Hs; [|no_query]. simpl.
  destruct (String_ _) as [sql'|]; [|no_query].
  destruct (starts_with_select sql') eqn:Hselect; [|no_query]. simpl.
  split; [lia|]. intros sql values Hin%list_elem_of_singleton.
  injection Hin as -> ->. by subst s.
Qed.
End handler_facts.

Section select_facts.
Implicit Types (s blank word rest : jsstring).

Lemma trim_start_split s :
  ∃ blank, s = blank ++ trim_start s ∧ Forall (λ c, is_white_space c = true) blank.
Proof.
  induction s as [|c s (blank & Hs & Hblank)]; [by exists []|]. simpl.
  destruct (is_white_space c) eqn:Hc.
  - exists (c :: blank). split; [by rewrite Hs at 1|by constructor].
  - by exists [].
Qed.

Lemma trim_start_stops c s : is_white_space c = false → trim_start (c :: s) = c :: s.
Proof. simpl. by intros ->. Qed.

Lemma lower_s c : lower c = 115 → is_white_space c = false.
Proof.
  unfold lower. destruct ((65 <=? c)%N && (c <=? 90)%N) eqn:Hupper.
  - intros Hc. assert (c = 83) as -> by lia. done.
  - by intros ->.
Qed.

(** X22.  The test of [tools/call] accepts exactly the texts made of white
    space, possibly none, then the word [SELECT] in any mix of upper and
    lower case, then a white space character, then anything at all. *)
Theorem starts_with_select_iff s :
  starts_with_select s = true ↔
  ∃ blank word space rest,
    s = blank ++ word ++ space :: rest ∧
    Forall (λ c, is_white_space c = true) blank ∧
    lower <$> word = str "select" ∧
    is_white_space space = true.
Proof.
  unfold starts_with_select. rewrite andb_true_iff, bool_decide_eq_true. split.
  - intros [Hword Hspace].
    destruct (trim_start_split s) as (blank & Hs & Hblank).
    destruct (drop 6 (trim_start s)) as [|space rest] eqn:Hdrop; [done|].
    exists blank, (take 6 (trim_start s)), space, rest.
    split_and!; [|done..].
    by rewrite <- Hdrop, take_drop.
  - intros (blank & word & space & rest & -> & Hblank & Hword & Hspace).
    assert (length word = 6%nat) as Hlen.
    { by rewrite <- (length_fmap lower), Hword. }
    rewrite trim_start_blank by done.
    destruct word as [|c word]; [done|].
    rewrite <- app_comm_cons, trim_start_stops.
    2:{ apply lower_s. by injection Hword. }
    rewrite app_comm_cons.
    rewrite take_app_length', drop_app_length' by done. done.
Qed.
End select_facts.

Section handler_facts_2.
Context `{Runtime} `{Library}.
Variable config : Config.
Variable pool : Pool.
Implicit Types (params uri row : value).

Lemma resource_of_fields row r :
  resource_of config row = Some r →
  ∃ name' address,
    prop r (str "name") = Some (VStr name') ∧
    prop r (str "uri") = Some (VStr address) ∧
    name' `suffix_of` address ∧
    has_own (str "description") r = true ∧
    prop r (str "mimeType") = Some (text "application/json").
Proof.
  unfold resource_of. intros Hr.
  destruct (prop row (str "TABLE_NAME")); [|done].
  destruct (prop row (str "table_name")); [|done].
  destruct (prop row (str "Table_name")); [|done]. simpl in Hr.
  destruct (safeString _) as [tableName|]; [|done]. simpl in Hr.
  destruct (String_ (database config)) as [db|]; [|done]. simpl in Hr.
  injection Hr as <-. eexists tableName, _. split_and!; try reflexivity.
  exists (str "mysql://" ++ db ++ str "/"). by rewrite <- !app_assoc.
Qed.

(** X20.  [resources/list] sends one query, the same whatever its
    parameters, with the database name as its one value.  When it succeeds
    its result is a list of as many resources as the pool answered rows;
    each has the fields [uri], [name], [description] and [mimeType], its
    uri ends with its name and its type is [application/json]. *)
Theorem resources_list_describes_rows params :
  queries (resources_list config pool params)
  = [(str "SELECT table_name FROM information_schema.tables WHERE table_schema = ?",
      Some [database config])] ∧
  ∀ result, settled (resources_list config pool params) = Fulfilled result →
    ∃ rows resources,
      pool (str "SELECT table_name FROM information_schema.tables WHERE table_schema = ?")
           (Some [database config]) = Rows (VArr rows) ∧
      result = object [("resources", VArr resources)] ∧
      length resources = length rows ∧
      Forall (λ r, ∃ name' address,
                prop r (str "name") = Some (VStr name') ∧
                prop r (str "uri") = Some (VStr address) ∧
                name' `suffix_of` address ∧
                has_own (str "description") r = true ∧
                prop r (str "mimeType") = Some (text "application/json"))
             resources.
Proof.
  split; [done|]. intros result. unfold resources_list, query. simpl.
  destruct (pool _ _) as [tables| |]; [|done..].
  destruct tables as [| | | | |rows|]; try done.
  destruct (mapM (resource_of config) rows) as [resources|] eqn:Hmap; [|done].
  intros [= <-]. exists rows, resources. split_and!; [done..| |].
  - symmetry. by eapply length_mapM.
  - apply mapM_Some in Hmap. induction Hmap as [|row r rows' rs Hr _ IH];
      constructor; [by eapply resource_of_fields|done].
Qed.

Lemma word_not_slash table : Forall (λ c, is_word c = true) table → 47 ∉ table.
Proof.
  intros Hwords Hin. rewrite Forall_forall in Hwords.
  by specialize (Hwords _ Hin).
Qed.

(** X19.  What [resources/list] lists, [resources/read] reads: for a
    database name without slash and a table whose name is made of letters,
    digits and underscores, the uri listed for the table, given back to
    [resources/read] without limit or offset, makes it query that very
    table, with the limit 100 and the offset 0 as [Number] converts
    them. *)
Theorem listed_uri_reads_its_table row db table limit offset :
  database config = VStr db →
  47 ∉ db →
  prop row (str "TABLE_NAME") = Some (VStr table) →
  table ≠ [] →
  Forall (λ c, is_word c = true) table →
  Number_ (VNum 100) = Some limit →
  Number_ (VNum 0) = Some offset →
  ∃ uri,
    (resource_of config row ≫= λ r, prop r (str "uri")) = Some uri ∧
    ∀ params,
      prop params (str "uri") = Some uri →
      prop params (str "limit") = Some VUndefined →
      prop params (str "offset") = Some VUndefined →
      queries (resources_read pool params)
      = [(str "SELECT * FROM `" ++ table ++ str "` LIMIT ? OFFSET ?",
          Some [limit; offset])].
Proof.
  intros Hdb Hslash Hrow Hne Hwords Hlimit Hoffset.
  exists (VStr (str "mysql://" ++ db ++ [47] ++ table ++ [])). split.
  - unfold resource_of. rewrite Hrow.
    destruct (prop_whole row "TABLE_NAME" _ Hrow (str "table_name")) as [? ->].
    destruct (prop_whole row "TABLE_NAME" _ Hrow (str "Table_name")) as [? ->].
    simpl. unfold or_else. simpl.
    destruct table as [|c table']; [done|]. simpl.
    rewrite Hdb. simpl. by rewrite app_nil_r.
  - intros params Huri Hlim Hoff. unfold resources_read.
    rewrite Huri, Hlim, Hoff.
    destruct (table_of_canonical db table []) as [Htable _];
      [done|by apply word_not_slash|by left|].
    rewrite Htable, decide_False, sanitize_id by done.
    simpl. destruct db, table; try done; simpl; by rewrite Hlimit, Hoffset.
Qed.
End handler_facts_2.

(** ** The server of [createServer] at work *)

Section served.
Context `{Runtime} `{Library}.
Variable config : Config.
Variable pool : Pool.
Implicit Types (msg id params : value).

Lemma mysql_server_read :
  Map_get (handlers (mysql_server config pool)) (text "resources/read")
  = Some (External (settled ∘ resources_read pool)).
Proof. reflexivity. Qed.

Lemma mysql_server_call :
  Map_get (handlers (mysql_server config pool)) (text "tools/call")
  = Some (External (settled ∘ tools_call pool)).
Proof. reflexivity. Qed.

Lemma or_empty_prop params k : is_Some (prop (or_empty params) k).
Proof.
  unfold or_empty. destruct (truthy params) eqn:Htruthy; [|by eexists].
  destruct params; try done; by eexists.
Qed.

(** X23.  What [tools/call] refuses, it refuses with a result: a call of a
    tool other than [query], or of [query] with a text that is not a
    SELECT, is answered by a result envelope whose result has the member
    [error]; it is not answered by an error envelope and nothing is
    logged. *)
Theorem tool_refusal_is_a_result msg id params :
  prop msg (str "id") = Some id →
  prop msg (str "method") = Some (text "tools/call") →
  prop msg (str "params") = Some params →
  let server := mysql_server config pool in
  let answered result :=
    _onRequest msg server
    = Run server
          [CallHandler (text "tools/call") (or_empty params);
           Stdout (JSON_stringify (success id result) ++ [LF])]
          (Returned tt) in
  (prop (or_empty params) (str "name") ≠ Some (text "query") →
   answered (object [("error", text "Unknown tool")])) ∧
  (∀ args sql,
     prop (or_empty params) (str "name") = Some (text "query") →
     prop (or_empty params) (str "arguments") = Some args →
     prop args (str "sql") = Some (VStr sql) →
     starts_with_select sql = false →
     answered (object [("error", text "Only SELECT queries allowed")])).
Proof.
  intros Hid Hmethod Hparams server answered. subst server answered. simpl.
  destruct (or_empty_prop params (str "name")) as [name' Hname].
  destruct (or_empty_prop params (str "arguments")) as [args' Hargs].
  split.
  - intros Hother.
    rewrite (_onRequest_known _ msg id _ params _ Hid Hmethod Hparams
               mysql_server_call).
    simpl. unfold tools_call. rewrite Hname, Hargs.
    destruct name' as [| | | |s| |]; try done.
    case_bool_decide as Hs; [|done]. subst s. by destruct Hother.
  - intros args sql Hquery Hargs' Hsql Hselect.
    rewrite (_onRequest_known _ msg id _ params _ Hid Hmethod Hparams
               mysql_server_call).
    simpl. unfold tools_call. rewrite Hquery, Hargs'. simpl.
    assert (match args with
            | VUndefined | VNull => VUndefined
            | _ => default VUndefined (prop args (str "sql"))
            end = VStr sql) as ->.
    { rewrite Hsql. by destruct args. }
    unfold or_else. destruct sql as [|c sql]; simpl; [done|].
    by rewrite Hselect.
Qed.

(** X24.  A [resources/read] request without a uri (no params at all, no
    member [uri], or a falsy one) reaches no query; the error
    [uri required] that the handler throws is logged, and the peer is
    answered with the error -32603 under the id of the request. *)
Theorem read_without_uri_is_internal_error msg id params uri :
  prop msg (str "id") = Some id →
  prop msg (str "method") = Some (text "resources/read") →
  prop msg (str "params") = Some params →
  prop (or_empty params) (str "uri") = Some uri →
  truthy uri = false →
  let server := mysql_server config pool in
  queries (resources_read pool (or_empty params)) = [] ∧
  _onRequest msg server
  = Run server
        [CallHandler (text "resources/read") (or_empty params);
         ConsoleError [text "[ERROR] handler threw"; Error_ "uri required"];
         Stdout (JSON_stringify (internal_error id) ++ [LF])]
        (Returned tt).
Proof.
  intros Hid Hmethod Hparams Huri Hfalsy server. subst server.
  assert (resources_read pool (or_empty params)
          = Exchange [] (Rejected (Error_ "uri required"))) as Hread.
  { unfold resources_read. rewrite Huri.
    destruct (or_empty_prop params (str "limit")) as [? ->].
    destruct (or_empty_prop params (str "offset")) as [? ->].
    by rewrite Hfalsy. }
  split; [by rewrite Hread|].
  rewrite (_onRequest_known _ msg id _ params _ Hid Hmethod Hparams
             mysql_server_read).
  simpl. by rewrite Hread.
Qed.

(** X25.  A [tools/call] request for the tool [query] with a SELECT sends
    that text to the pool, once.  Rows come back to the peer as the member
    [result] of the result; an error of the pool is logged and the peer is
    answered with the error -32603, which says nothing of it; while the
    pool does not answer, nothing is written. *)
Theorem select_is_run_and_answered msg id params args sql :
  prop msg (str "id") = Some id →
  prop msg (str "method") = Some (text "tools/call") →
  prop msg (str "params") = Some params →
  prop (or_empty params) (str "name") = Some (text "query") →
  prop (or_empty params) (str "arguments") = Some args →
  prop args (str "sql") = Some (VStr sql) →
  starts_with_select sql = true →
  let server := mysql_server config pool in
  queries (tools_call pool (or_empty params)) = [(sql, None)] ∧
  _onRequest msg server
  = Run server
        (CallHandler (text "tools/call") (or_empty params) ::
         match pool sql None with
         | Rows rows =>
             [Stdout (JSON_stringify
                        (success id (object [("result", rows)])) ++ [LF])]
         | Fails err =>
             [ConsoleError [text "[ERROR] handler threw"; err];
              Stdout (JSON_stringify (internal_error id) ++ [LF])]
         | NoAnswer => []
         end)
        (Returned tt).
Proof.
  intros Hid Hmethod Hparams Hname Hargs Hsql Hselect server. subst server.
  assert (tools_call pool (or_empty params)
          = query pool sql None (λ rows, Fulfilled (object [("result", rows)])))
    as Hcall.
  { unfold tools_call. rewrite Hname, Hargs. simpl.
    assert (match args with
            | VUndefined | VNull => VUndefined
            | _ => default VUndefined (prop args (str "sql"))
            end = VStr sql) as ->.
    { rewrite Hsql. by destruct args. }
    unfold or_else. destruct sql as [|c sql]; simpl; [done|].
    by rewrite Hselect. }
  split; [by rewrite Hcall|].
  rewrite (_onRequest_known _ msg id _ params _ Hid Hmethod Hparams
             mysql_server_call).
  simpl. rewrite Hcall. simpl. by destruct (pool sql None).
Qed.
(** No handler of [createServer] ever returns nothing. *)
Lemma served_results_defined msg :
  handled (mysql_server config pool) msg ≠ Some (Fulfilled VUndefined).
Proof.
  unfold handled.
  destruct (prop msg (str "method")) as [method|]; [|done]. simpl.
  destruct (prop msg (str "params")) as [params|]; [|done]. simpl.
  destruct (Map_get _ method) as [fn|] eqn:Hfn; [|done]. simpl.
  apply createServer_handlers in Hfn.
  intros [= Hcall]. revert Hcall.
  destruct Hfn as [->|[->|[->|[->|[->|[->|[->| ->]]]]]]]; simpl; try done.
  - unfold resources_list, query. simpl.
    repeat (case_match; simplify_eq/=); done.
  - unfold resources_read, query, throws. simpl.
    repeat (case_match; simplify_eq/=); done.
  - unfold resources_templates_get, query, throws. simpl.
    repeat (case_match; simplify_eq/=); done.
  - unfold tools_call, query, throws, returns. simpl.
    repeat (case_match; simplify_eq/=); done.
Qed.

(** X26.  Every message that the server of [createServer] writes in answer
    to a request, whatever the request, the configuration and the answers
    of the pool, holds either the member [result] and no member [error], or
    the member [error], an object made of a code and a message, and no
    member [result]. *)
Theorem served_reply_has_result_xor_error msg out :
  out ∈ written (trace (_onRequest msg (mysql_server config pool))) →
  ∃ reply,
    out = JSON_stringify reply ++ [LF] ∧
    (is_Some (member "result" reply) ∧ member "error" reply = None
     ∨
     member "result" reply = None ∧
     ∃ code message,
       member "error" reply
       = Some (object [("code", VNum code); ("message", VStr message)])).
Proof.
  intros Hout.
  destruct (reply_members _ msg out (served_results_defined msg) Hout)
    as (reply & -> & [[(result & _ & Hresult) Herror]|Herror]);
    exists reply; (split; [done|]); [left|by right].
  split; [by exists result|done].
Qed.
End served.

(** ** More of the code at work *)

Section more_examples.
#[local] Existing Instance Demo.runtime.
#[local] Existing Instance Sample.library.

(** The spec's scenario: a handler [echo] that returns its parameters. *)
Example echo_answered :
  written (trace (_onRequest Sample.echo_request Sample.echo_server))
  = [JSON_stringify
       (object [("jsonrpc", text "2.0"); ("id", VNum 3);
                ("result", object [("x", VNum 1)])]) ++ [LF]].
Proof. vm_compute. reflexivity. Qed.

(** A uri with a backquote, semicolons and a comment in it. *)
Example hostile_uri :
  table_of (VStr (str "mysql://shop/users`; DROP TABLE users; -- "))
  = Some (str "usersDROPTABLEusers").
Proof. vm_compute. reflexivity. Qed.

Lemma callbacks_called_for_cause_witness :
  Call Dispatch Demo.nope_request
    ∈ trace (on_data [Demo.line_of Demo.nope_request] (transport Demo.server)) ∧
  onRequest (transport Demo.server) = Some Dispatch.
Proof.
  assert (Call Dispatch Demo.nope_request
            ∈ trace (on_data [Demo.line_of Demo.nope_request]
                             (transport Demo.server))) as Hin.
  { vm_compute. apply list_elem_of_further, list_elem_of_here. }
  split; [exact Hin|].
  exact (callbacks_called_for_cause _ _ _ _ Hin).
Defined.

Lemma null_line_ends_process_witness :
  buffer (transport Demo.server) ++ (str "null" ++ [LF] ++ str "x")
    = str "null" ++ LF :: str "x" ∧
  (LF ∉ str "null") ∧
  trim (str "null") ≠ [] ∧
  JSON_parse (trim (str "null")) = Some VNull ∧
  on_data [str "null" ++ [LF] ++ str "x"; Demo.line_of Demo.nope_request]
          (transport Demo.server)
  = Run (with_buffer (str "x") (transport Demo.server)) [Classify VNull] TypeError.
Proof.
  assert (LF ∉ str "null") as Hline.
  { apply (bool_decide_unpack _). vm_compute. reflexivity. }
  split_and!; [reflexivity|exact Hline|discriminate|reflexivity|].
  apply (null_line_ends_process (transport Demo.server)
           (str "null" ++ [LF] ++ str "x") (str "null") (str "x")
           [Demo.line_of Demo.nope_request]);
    [reflexivity|exact Hline|discriminate|reflexivity].
Defined.

Lemma surrounding_white_space_ignored_witness :
  buffer (transport Demo.server)
    ++ (str " " ++ Demo.line_of Demo.nope_request)
    = (str " " ++ default [] (Demo.stringify Demo.nope_request) ++ []) ++ LF :: [] ∧
  (LF ∉ str " " ++ default [] (Demo.stringify Demo.nope_request) ++ []) ∧
  Forall (λ c, is_white_space c = true) (str " ") ∧
  Forall (λ c, is_white_space c = true) [] ∧
  _onData (str " " ++ Demo.line_of Demo.nope_request) (transport Demo.server)
  = _onData (default [] (Demo.stringify Demo.nope_request) ++ LF :: [])
            (with_buffer [] (transport Demo.server)).
Proof.
  assert (LF ∉ str " " ++ default [] (Demo.stringify Demo.nope_request) ++ [])
    as Hline.
  { apply (bool_decide_unpack _). vm_compute. reflexivity. }
  assert (Forall (λ c, is_white_space c = true) (str " ")) as Hblank.
  { apply (bool_decide_unpack _). vm_compute. reflexivity. }
  split_and!; [reflexivity|exact Hline|exact Hblank|constructor|].
  apply (surrounding_white_space_ignored (transport Demo.server)
           (str " " ++ Demo.line_of Demo.nope_request) (str " ")
           (default [] (Demo.stringify Demo.nope_request)) [] []);
    [reflexivity|exact Hline|exact Hblank|constructor].
Defined.

Lemma inert_line_dropped_witness :
  buffer Demo.waiting ++ Demo.line_of Demo.reply_0
    = default [] (Demo.stringify Demo.reply_0) ++ LF :: [] ∧
  (LF ∉ default [] (Demo.stringify Demo.reply_0)) ∧
  trim (default [] (Demo.stringify Demo.reply_0)) ≠ [] ∧
  JSON_parse (trim (default [] (Demo.stringify Demo.reply_0)))
    = Some Demo.reply_0 ∧
  prop Demo.reply_0 (str "method") = Some VUndefined ∧
  truthy VUndefined = false ∧
  prop Demo.reply_0 (str "id") = Some (VNum 0) ∧
  truthy (VNum 0) = false ∧
  _onData (Demo.line_of Demo.reply_0) Demo.waiting
  = after [Classify Demo.reply_0] (_onData [] (with_buffer [] Demo.waiting)).
Proof.
  assert (LF ∉ default [] (Demo.stringify Demo.reply_0)) as Hline.
  { apply (bool_decide_unpack _). vm_compute. reflexivity. }
  assert (trim (default [] (Demo.stringify Demo.reply_0)) ≠ []) as Hne.
  { vm_compute. discriminate. }
  assert (JSON_parse (trim (default [] (Demo.stringify Demo.reply_0)))
          = Some Demo.reply_0) as Hparse.
  { vm_compute. reflexivity. }
  split_and!; [reflexivity|exact Hline|exact Hne|exact Hparse|reflexivity..|].
  apply (inert_line_dropped Demo.waiting (Demo.line_of Demo.reply_0)
           (default [] (Demo.stringify Demo.reply_0)) [] Demo.reply_0
           VUndefined (VNum 0));
    [reflexivity|exact Hline|exact Hne|exact Hparse|reflexivity..].
Defined.

Lemma request_line_dispatched_witness :
  buffer (transport Demo.server) ++ Demo.line_of Demo.nope_request
    = default [] (Demo.stringify Demo.nope_request) ++ LF :: [] ∧
  (LF ∉ default [] (Demo.stringify Demo.nope_request)) ∧
  trim (default [] (Demo.stringify Demo.nope_request)) ≠ [] ∧
  JSON_parse (trim (default [] (Demo.stringify Demo.nope_request)))
    = Some Demo.nope_request ∧
  is_request Demo.nope_request = true ∧
  _onData (Demo.line_of Demo.nope_request) (transport Demo.server)
  = after [Classify Demo.nope_request; Call Dispatch Demo.nope_request]
          (_onData [] (with_buffer [] (transport Demo.server))).
Proof.
  assert (LF ∉ default [] (Demo.stringify Demo.nope_request)) as Hline.
  { apply (bool_decide_unpack _). vm_compute. reflexivity. }
  assert (trim (default [] (Demo.stringify Demo.nope_request)) ≠ []) as Hne.
  { vm_compute. discriminate. }
  assert (JSON_parse (trim (default [] (Demo.stringify Demo.nope_request)))
          = Some Demo.nope_request) as Hparse.
  { vm_compute. reflexivity. }
  split_and!; [reflexivity|exact Hline|exact Hne|exact Hparse|reflexivity|].
  apply (request_line_dispatched (transport Demo.server)
           (Demo.line_of Demo.nope_request)
           (default [] (Demo.stringify Demo.nope_request)) [] Demo.nope_request);
    [reflexivity|exact Hline|exact Hne|exact Hparse|reflexivity].
Defined.

Lemma handler_success_answered_witness :
  prop Sample.echo_request (str "id") = Some (VNum 3) ∧
  prop Sample.echo_request (str "method") = Some (text "echo") ∧
  prop Sample.echo_request (str "params") = Some (object [("x", VNum 1)]) ∧
  Map_get (handlers Sample.echo_server) (text "echo") = Some Sample.echo ∧
  call Sample.echo_server Sample.echo (or_empty (object [("x", VNum 1)]))
    = Fulfilled (object [("x", VNum 1)]) ∧
  _onRequest Sample.echo_request Sample.echo_server
  = Run Sample.echo_server
        [CallHandler (text "echo") (or_empty (object [("x", VNum 1)]));
         Stdout (JSON_stringify
                   (success (VNum 3) (object [("x", VNum 1)])) ++ [LF])]
        (Returned tt).
Proof.
  split_and!; [reflexivity..|].
  apply (handler_success_answered Sample.echo_server Sample.echo_request
           (VNum 3) (text "echo") (object [("x", VNum 1)]) Sample.echo
           (object [("x", VNum 1)]));
    reflexivity.
Defined.

Lemma reply_carries_request_id_witness :
  JSON_stringify (method_not_found (VNum 2) (str "nope")) ++ [LF]
    ∈ written (trace (_onRequest Demo.nope_request Demo.server)) ∧
  ∃ reply,
    JSON_stringify (method_not_found (VNum 2) (str "nope")) ++ [LF]
      = JSON_stringify reply ++ [LF] ∧
    prop reply (str "jsonrpc") = Some (text "2.0") ∧
    prop reply (str "id") = prop Demo.nope_request (str "id").
Proof.
  assert (JSON_stringify (method_not_found (VNum 2) (str "nope")) ++ [LF]
            ∈ written (trace (_onRequest Demo.nope_request Demo.server)))
    as Hin.
  { apply (bool_decide_unpack _). vm_compute. reflexivity. }
  split; [exact Hin|].
  exact (reply_carries_request_id Demo.server Demo.nope_request _ Hin).
Defined.

Lemma setHandler_takes_effect_witness :
  prop Sample.echo_request (str "id") = Some (VNum 3) ∧
  prop Sample.echo_request (str "method") = Some (text "echo") ∧
  prop Sample.echo_request (str "params") = Some (object [("x", VNum 1)]) ∧
  text "echo" = text "echo" ∧
  written (trace (_onRequest Sample.echo_request
                    (final (setHandler "echo" Sample.echo Demo.server))))
  = [JSON_stringify (success (VNum 3) (object [("x", VNum 1)])) ++ [LF]].
Proof.
  split_and!; [reflexivity..|].
  destruct (setHandler_takes_effect Demo.server "echo" Sample.echo
              Sample.echo_request (VNum 3) (text "echo")
              (object [("x", VNum 1)]) eq_refl eq_refl eq_refl) as [Hrun _].
  rewrite (Hrun eq_refl). reflexivity.
Defined.

Lemma createServer_knows_eight_methods_witness :
  prop Demo.nope_request (str "id") = Some (VNum 2) ∧
  prop Demo.nope_request (str "method") = Some (text "nope") ∧
  (text "nope" ∉ text <$> registered_names) ∧
  _onRequest Demo.nope_request Demo.server
  = Run Demo.server
        [Stdout (JSON_stringify (method_not_found (VNum 2) (str "nope")) ++ [LF])]
        (Returned tt).
Proof.
  assert (text "nope" ∉ text <$> registered_names) as Hother.
  { unfold registered_names. rewrite !fmap_cons, fmap_nil, !not_elem_of_cons.
    split_and!; try (intros Heq; vm_compute in Heq; discriminate).
    apply not_elem_of_nil. }
  split_and!; [reflexivity|reflexivity|exact Hother|].
  destruct (createServer_knows_eight_methods
              (λ _, NeverSettles) (λ _, NeverSettles) (λ _, NeverSettles)
              (λ _, NeverSettles) Demo.nope_request (VNum 2) (text "nope")
              eq_refl eq_refl) as [_ Hrun].
  exact (Hrun Hother).
Defined.

Lemma dispatched_message_throws_only_unprintable_witness :
  Call Dispatch Demo.nope_request
    ∈ trace (on_data [Demo.line_of Demo.nope_request] (transport Demo.server)) ∧
  ∃ method,
    prop Demo.nope_request (str "method") = Some method ∧
    (outcome (_onRequest Demo.nope_request Demo.server) = TypeError ↔
     Map_has (handlers Demo.server) method = false ∧ ToString method = None) ∧
    (is_Some (to_key method) →
     outcome (_onRequest Demo.nope_request Demo.server) ≠ TypeError).
Proof.
  assert (Call Dispatch Demo.nope_request
            ∈ trace (on_data [Demo.line_of Demo.nope_request]
                             (transport Demo.server))) as Hin.
  { vm_compute. apply list_elem_of_further, list_elem_of_here. }
  split; [exact Hin|].
  exact (dispatched_message_throws_only_unprintable _ _ _ _ Demo.server Hin).
Defined.

Lemma table_named_by_uri_witness :
  (47 ∉ str "shop") ∧
  (47 ∉ str "users") ∧
  (([] : jsstring) = [] ∨ (∃ segments, ([] : jsstring) = 47 :: segments)) ∧
  table_of (VStr (str "mysql://" ++ str "shop" ++ [47] ++ str "users" ++ []))
  = Some (str "users").
Proof.
  assert (47 ∉ str "shop") as Hdb.
  { apply (bool_decide_unpack _). vm_compute. reflexivity. }
  assert (47 ∉ str "users") as Htable.
  { apply (bool_decide_unpack _). vm_compute. reflexivity. }
  split_and!; [exact Hdb|exact Htable|by left|].
  apply (table_named_by_uri (str "shop") (str "users") [] Hdb Htable).
  by left.
Defined.

Lemma uri_must_be_a_string_witness :
  prop (object [("uri", VNum 5)]) (str "uri") = Some (VNum 5) ∧
  prop (object [("uri", VNum 5)]) (str "templateId") = Some VUndefined ∧
  (∀ u, VNum 5 = VStr u → u = []) ∧
  resources_read Sample.pool (object [("uri", VNum 5)])
  = Exchange [] (Rejected TypeError_) ∧
  resources_templates_get Sample.pool (object [("uri", VNum 5)])
  = Exchange [] (Rejected (Error_ "uri and templateId required")).
Proof.
  split; [reflexivity|]. split; [reflexivity|]. split; [discriminate|].
  apply (uri_must_be_a_string Sample.pool (object [("uri", VNum 5)]) (VNum 5)
           VUndefined);
    [reflexivity|reflexivity|discriminate].
Defined.

Lemma listed_uri_reads_its_table_witness :
  database Sample.config = VStr (str "shop") ∧
  (47 ∉ str "shop") ∧
  prop (object [("TABLE_NAME", text "users")]) (str "TABLE_NAME")
    = Some (VStr (str "users")) ∧
  str "users" ≠ [] ∧
  Forall (λ c, is_word c = true) (str "users") ∧
  Number_ (VNum 100) = Some (VNum 100) ∧
  Number_ (VNum 0) = Some (VNum 0) ∧
  ∃ uri,
    (resource_of Sample.config (object [("TABLE_NAME", text "users")])
       ≫= λ r, prop r (str "uri")) = Some uri ∧
    ∀ params,
      prop params (str "uri") = Some uri →
      prop params (str "limit") = Some VUndefined →
      prop params (str "offset") = Some VUndefined →
      queries (resources_read Sample.pool params)
      = [(str "SELECT * FROM `" ++ str "users" ++ str "` LIMIT ? OFFSET ?",
          Some [VNum 100; VNum 0])].
Proof.
  assert (47 ∉ str "shop") as Hdb.
  { apply (bool_decide_unpack _). vm_compute. reflexivity. }
  assert (Forall (λ c, is_word c = true) (str "users")) as Hwords.
  { apply (bool_decide_unpack _). vm_compute. reflexivity. }
  split_and!; [reflexivity|exact Hdb|reflexivity|discriminate|exact Hwords
              |reflexivity|reflexivity|].
  apply (listed_uri_reads_its_table Sample.config Sample.pool
           (object [("TABLE_NAME", text "users")]) (str "shop") (str "users")
           (VNum 100) (VNum 0));
    [reflexivity|exact Hdb|reflexivity|discriminate|exact Hwords
    |reflexivity|reflexivity].
Defined.

Lemma tool_refusal_is_a_result_witness :
  prop Sample.drop_request (str "id") = Some (VNum 5) ∧
  prop Sample.drop_request (str "method") = Some (text "tools/call") ∧
  prop Sample.drop_request (str "params")
    = Some (object [("name", text "drop")]) ∧
  prop (or_empty (object [("name", text "drop")])) (str "name")
    ≠ Some (text "query") ∧
  _onRequest Sample.drop_request Sample.server
  = Run Sample.server
        [CallHandler (text "tools/call") (or_empty (object [("name", text "drop")]));
         Stdout (JSON_stringify
                   (success (VNum 5) (object [("error", text "Unknown tool")]))
                 ++ [LF])]
        (Returned tt).
Proof.
  split_and!; [reflexivity|reflexivity|reflexivity|discriminate|].
  destruct (tool_refusal_is_a_result Sample.config Sample.pool
              Sample.drop_request (VNum 5) (object [("name", text "drop")])
              eq_refl eq_refl eq_refl) as [Hother _].
  apply Hother. discriminate.
Defined.

Lemma read_without_uri_is_internal_error_witness :
  prop Sample.read_request (str "id") = Some (VNum 4) ∧
  prop Sample.read_request (str "method") = Some (text "resources/read") ∧
  prop Sample.read_request (str "params") = Some VUndefined ∧
  prop (or_empty VUndefined) (str "uri") = Some VUndefined ∧
  truthy VUndefined = false ∧
  written (trace (_onRequest Sample.read_request Sample.server))
  = [JSON_stringify (internal_error (VNum 4)) ++ [LF]].
Proof.
  split_and!; [reflexivity..|].
  destruct (read_without_uri_is_internal_error Sample.config Sample.pool
              Sample.read_request (VNum 4) VUndefined VUndefined
              eq_refl eq_refl eq_refl eq_refl eq_refl) as [_ Hrun].
  unfold Sample.server. rewrite Hrun. reflexivity.
Defined.

Lemma select_is_run_and_answered_witness :
  prop Sample.select_request (str "id") = Some (VNum 6) ∧
  prop Sample.select_request (str "method") = Some (text "tools/call") ∧
  starts_with_select (str "SELECT crash ") = true ∧
  written (trace (_onRequest Sample.select_request Sample.server))
  = [JSON_stringify (internal_error (VNum 6)) ++ [LF]].
Proof.
  split_and!; [reflexivity|reflexivity|vm_compute; reflexivity|].
  destruct (select_is_run_and_answered Sample.config Sample.pool
              Sample.select_request (VNum 6)
              (object [("name", text "query");
                       ("arguments", object [("sql", text "SELECT crash ")])])
              (object [("sql", text "SELECT crash ")]) (str "SELECT crash ")
              eq_refl eq_refl eq_refl eq_refl eq_refl eq_refl eq_refl)
    as [_ Hrun].
  unfold Sample.server. rewrite Hrun. reflexivity.
Defined.
End more_examples.

(** ** The pool handlers at work *)

Section query_examples.
#[local] Existing Instance Demo.runtime.
#[local] Existing Instance Sample.library.

Lemma lines_handled_in_order_witness :
  ∃ lines tail,
    buffer (transport Demo.server) ++ (Demo.line_of Demo.nope_request ++ str "x")
      = terminated lines ++ tail ∧
    Forall (λ line, LF ∉ line) lines ∧
    (LF ∉ tail) ∧
    let r := _onData (Demo.line_of Demo.nope_request ++ str "x")
                     (transport Demo.server) in
    let r' := each_line lines (with_buffer tail (transport Demo.server)) in
    trace r = trace r' ∧
    outcome r = outcome r' ∧
    (outcome r = Returned tt → final r = final r').
Proof.
  apply (lines_handled_in_order (transport Demo.server)
           (Demo.line_of Demo.nope_request ++ str "x")).
Defined.

Lemma resources_read_query_safe_witness :
  (str "SELECT * FROM `usersDROPTABLEusers` LIMIT ? OFFSET ?",
   Some [VNum 100; VNum 0])
    ∈ queries (resources_read Sample.pool
                 (object [("uri", text "mysql://shop/users`; DROP TABLE users; -- ")])) ∧
  ∃ table limit offset,
    str "SELECT * FROM `usersDROPTABLEusers` LIMIT ? OFFSET ?"
      = str "SELECT * FROM `" ++ table ++ str "` LIMIT ? OFFSET ?" ∧
    Forall (λ c, is_word c = true) table ∧
    Some [VNum 100; VNum 0] = Some [limit; offset].
Proof.
  assert ((str "SELECT * FROM `usersDROPTABLEusers` LIMIT ? OFFSET ?",
           Some [VNum 100; VNum 0])
            ∈ queries (resources_read Sample.pool
                         (object [("uri", text "mysql://shop/users`; DROP TABLE users; -- ")])))
    as Hin.
  { vm_compute. apply list_elem_of_here. }
  split; [exact Hin|].
  exact (proj2 (resources_read_query_safe Sample.pool _) _ _ Hin).
Defined.

Lemma resources_templates_get_query_witness :
  (str "SELECT * FROM `users` LIMIT ?", Some [VNum 100])
    ∈ queries (resources_templates_get Sample.pool
                 (object [("uri", text "mysql://shop/users");
                          ("templateId", text "top100")])) ∧
  ∃ table limit,
    str "SELECT * FROM `users` LIMIT ?"
      = str "SELECT * FROM `" ++ table ++ str "` LIMIT ?" ∧
    Forall (λ c, is_word c = true) table ∧
    Some [VNum 100] = Some [VNum limit] ∧
    (prop (object [("uri", text "mysql://shop/users");
                   ("templateId", text "top100")]) (str "templateId")
       = Some (text "top100") ∧ limit = 100%Z ∨
     prop (object [("uri", text "mysql://shop/users");
                   ("templateId", text "top100")]) (str "templateId")
       ≠ Some (text "top100") ∧ limit = 10%Z).
Proof.
  assert ((str "SELECT * FROM `users` LIMIT ?", Some [VNum 100])
            ∈ queries (resources_templates_get Sample.pool
                         (object [("uri", text "mysql://shop/users");
                                  ("templateId", text "top100")])))
    as Hin.
  { vm_compute. apply list_elem_of_here. }
  split; [exact Hin|].
  exact (proj2 (resources_templates_get_query Sample.pool _) _ _ Hin).
Defined.

Lemma resources_list_describes_rows_witness :
  settled (resources_list Sample.config Sample.pool (object []))
  = Fulfilled
      (object [("resources",
                VArr [object [("uri", text "mysql://shop/users");
                              ("name", text "users");
                              ("description", text "MySQL table users in shop");
                              ("mimeType", text "application/json")]])]) ∧
  ∃ rows resources,
    Sample.pool
      (str "SELECT table_name FROM information_schema.tables WHERE table_schema = ?")
      (Some [database Sample.config]) = Rows (VArr rows) ∧
    object [("resources",
             VArr [object [("uri", text "mysql://shop/users");
                           ("name", text "users");
                           ("description", text "MySQL table users in shop");
                           ("mimeType", text "application/json")]])]
      = object [("resources", VArr resources)] ∧
    length resources = length rows ∧
    Forall (λ r, ∃ name' address,
              prop r (str "name") = Some (VStr name') ∧
              prop r (str "uri") = Some (VStr address) ∧
              name' `suffix_of` address ∧
              has_own (str "description") r = true ∧
              prop r (str "mimeType") = Some (text "application/json"))
           resources.
Proof.
  assert (settled (resources_list Sample.config Sample.pool (object []))
          = Fulfilled
              (object [("resources",
                        VArr [object [("uri", text "mysql://shop/users");
                                      ("name", text "users");
                                      ("description", text "MySQL table users in shop");
                                      ("mimeType", text "application/json")]])]))
    as Hrun.
  { vm_compute. reflexivity. }
  split; [exact Hrun|].
  exact (proj2 (resources_list_describes_rows Sample.config Sample.pool _) _ Hrun).
Defined.

Lemma tools_call_sends_select_only_witness :
  (str "select 1 ", None)
    ∈ queries (tools_call Sample.pool
                 (object [("name", text "query");
                          ("arguments", object [("sql", text "select 1 ")])])) ∧
  prop (object [("name", text "query");
                ("arguments", object [("sql", text "select 1 ")])]) (str "name")
    = Some (text "query") ∧
  starts_with_select (str "select 1 ") = true ∧
  (None : option (list value)) = None.
Proof.
  assert ((str "select 1 ", None)
            ∈ queries (tools_call Sample.pool
                         (object [("name", text "query");
                                  ("arguments", object [("sql", text "select 1 ")])])))
    as Hin.
  { vm_compute. apply list_elem_of_here. }
  split; [exact Hin|].
  exact (proj2 (tools_call_sends_select_only Sample.pool _) _ _ Hin).
Defined.

Lemma starts_with_select_iff_witness :
  starts_with_select (str "  SeLeCt" ++ 9 :: str "* from t") = true ∧
  starts_with_select (str "SELECT") = false.
Proof.
  split.
  - apply (proj2 (starts_with_select_iff _)).
    exists (str "  "), (str "SeLeCt"), 9, (str "* from t").
    split_and!; [reflexivity| |reflexivity|reflexivity].
    apply (bool_decide_unpack _). vm_compute. reflexivity.
  - vm_compute. reflexivity.
Defined.

Lemma served_reply_has_result_xor_error_witness :
  JSON_stringify (success (VNum 5) (object [("error", text "Unknown tool")]))
    ++ [LF]
    ∈ written (trace (_onRequest Sample.drop_request Sample.server)) ∧
  ∃ reply,
    JSON_stringify (success (VNum 5) (object [("error", text "Unknown tool")]))
      ++ [LF]
    = JSON_stringify reply ++ [LF] ∧
    (is_Some (member "result" reply) ∧ member "error" reply = None
     ∨
     member "result" reply = None ∧
     ∃ code message,
       member "error" reply
       = Some (object [("code", VNum code); ("message", VStr message)])).
Proof.
  assert (JSON_stringify
            (success (VNum 5) (object [("error", text "Unknown tool")])) ++ [LF]
            ∈ written (trace (_onRequest Sample.drop_request Sample.server)))
    as Hin.
  { apply (bool_decide_unpack _). vm_compute. reflexivity. }
  split; [exact Hin|].
  exact (served_reply_has_result_xor_error Sample.config Sample.pool
           Sample.drop_request _ Hin).
Defined.

End query_examples.
